(** * The mirror session engine of [mc]

    A shallow embedding of the [mirror] command: the transfer task
    [doMirror], the replay [doMirrorFake], the URL preparation loop
    [doPrepareMirrorURLs] and the two goroutines of [doMirrorSession] (the
    status monitor and the log scanner), followed by the properties of the
    engine that the specification states about them.

    Code runs in a state monad over a [world] (the session store and an
    ordered record of every externally visible call) with abrupt
    termination: [os.Exit] and a run-time panic end the computation.  Each
    goroutine is a computation of its own, run against the sequence of
    cases its [select] takes; the slots of [mirrorQueue] are followed
    through the interleavings of the scanner with its tasks. *)

From stdpp Require Import base numbers strings list gmap.

Local Open Scope Z_scope.

(** ** Machine integers *)

Module Int64.

Definition min_int : Z := - 2 ^ 63.
Definition max_int : Z := 2 ^ 63 - 1.

(** Two's complement reduction of an integer into the [int64] range. *)
Definition wrap (z : Z) : Z := (z + 2 ^ 63) `mod` 2 ^ 64 - 2 ^ 63.

(** [a + b] on [int64]. *)
Definition add (a b : Z) : Z := wrap (a + b).

Definition in_range (z : Z) : Prop := min_int ≤ z ≤ max_int.

End Int64.

(** ** Data model *)

(** Modelled from the spec: the errors of the storage clients (package
    [client], declared outside this file), a closed taxonomy.  The status
    monitor names four of them in its type switch; [OtherError] stands for
    every other Go error value. *)
Inductive goError : Type :=
  | BrokenSymlink (path : string)
  | TooManyLevelsSymlink (path : string)
  | PathNotFound (path : string)
  | PathInsufficientPermission (path : string)
  | OtherError (msg : string).

(** [*probe.Error]: a Go error together with the context recorded by each
    [Trace(args...)] on its way up. *)
Record probeError : Type := mkProbeError {
  cause : goError;
  callInfo : list (list string)
}.

Definition NewError (e : goError) : probeError := mkProbeError e [].

Definition Trace (e : probeError) (args : list string) : probeError :=
  mkProbeError (cause e) (callInfo e ++ [args]).

Definition ToGoError (e : probeError) : goError := cause e.

(** Modelled from the spec: the types [client.Content] and [mirrorURLs] are
    declared outside this file.  A transfer unit has a source content (URL
    and size, an [int64]), one target content per destination root, and an
    optional error that is set only transiently. *)
Record content : Type := mkContent {
  URL : string;
  Size : Z
}.

Record mirrorURLs : Type := mkMirrorURLs {
  SourceContent : content;
  TargetContents : list content;
  Error : option probeError
}.

(** [sURLs.Error = e]; the argument is passed by value, so the assignment
    changes the task's own copy. *)
Definition setError (sURLs : mirrorURLs) (e : option probeError) : mirrorURLs :=
  mkMirrorURLs (SourceContent sURLs) (TargetContents sURLs) e.

(** Modelled from the spec: the session header (type [sessionV5Header],
    declared outside this file). *)
Record sessionHeader : Type := mkHeader {
  CommandType : string;
  CommandArgs : list string;
  CommandBoolFlags : gmap string bool;
  TotalBytes : Z;
  TotalObjects : Z;
  LastCopied : string;
  RootPath : string
}.

Definition setLastCopied (h : sessionHeader) (url : string) : sessionHeader :=
  mkHeader (CommandType h) (CommandArgs h) (CommandBoolFlags h)
           (TotalBytes h) (TotalObjects h) url (RootPath h).

Definition setTotals (h : sessionHeader) (bytes objects : Z) : sessionHeader :=
  mkHeader (CommandType h) (CommandArgs h) (CommandBoolFlags h)
           bytes objects (LastCopied h) (RootPath h).

(** Modelled from the spec: the session store (type [sessionV5], declared
    outside this file) owns one header and one append-only log.  [Header] is
    the header in memory, [savedHeader] the header file on disk and
    [dataFile] the log on disk; [None] is a file that does not exist. *)
Record sessionV5 : Type := mkSession {
  Header : sessionHeader;
  savedHeader : option sessionHeader;
  dataFile : option (list string)
}.

(** Streams handed to [putTargets]. *)
Inductive readCloser : Type :=
  | nilReader
  | sourceStream (url : string)
  | accountingProxy (r : readCloser)
  | progressProxy (r : readCloser).

(** Modelled from the spec: the progress bar ([*barSend]) and the
    accounting reader ([*accounter]), both declared outside this file, each
    created from the session's total. *)
Inductive barSend : Type := newProgressBar (total : Z).
Inductive accounter : Type := newAccounter (total : Z).

(** Calls on the progress bar. *)
Inductive barCall : Type :=
  | SetCaption (caption : string)
  | ErrorGet (size : Z)
  | ErrorPut (size : Z)
  | Progress (size : Z)
  | NewProxyReader (r : readCloser)
  | Finish.

(** The two wait groups of [doMirrorSession]: [wg] joins its two
    goroutines, [mirrorWg] the transfer tasks. *)
Inductive waitGroup : Type := wg | mirrorWg.

(** ** Observable calls *)

Inductive event : Type :=
  (* console and progress *)
  | EvBar (c : barCall)
  | EvEraseline
  | EvErrorIf (e : probeError) (msg : string)
  | EvFatalIf (e : probeError) (msg : string)
  | EvPrintMsg (source : string) (targets : list string)
  | EvPrintStat (a : accounter)
  | EvScanBar (url : string)
  (* storage collaborators *)
  | EvGetSource (url : string)
  | EvPutTargets (urls : list string) (length : Z) (r : readCloser)
  | EvReaderClose (r : readCloser)
  (* channels and wait groups *)
  | EvSend (status : mirrorURLs)
  | EvAcquire
  | EvRelease
  | EvWgAdd (g : waitGroup)
  | EvWgDone (g : waitGroup)
  | EvWgWait (g : waitGroup)
  | EvGo (sURLs : mirrorURLs)
  | EvCloseStatusCh
  (* session store *)
  | EvNewDataWriter
  | EvFprintln (line : string)
  | EvSave (h : sessionHeader)
  | EvDelete.

Global Instance goError_eq_dec : EqDecision goError.
Proof. solve_decision. Defined.
Global Instance probeError_eq_dec : EqDecision probeError.
Proof. solve_decision. Defined.
Global Instance content_eq_dec : EqDecision content.
Proof. solve_decision. Defined.
Global Instance mirrorURLs_eq_dec : EqDecision mirrorURLs.
Proof. solve_decision. Defined.
Global Instance readCloser_eq_dec : EqDecision readCloser.
Proof. solve_decision. Defined.

(** ** The monad of the engine *)

Record world : Type := mkWorld {
  session : sessionV5;
  out : list event
}.

Inductive outcome (A : Type) : Type :=
  | Ret (a : A)
  | Exited (code : Z)
  | Panicked.
Arguments Ret {A} a.
Arguments Exited {A} code.
Arguments Panicked {A}.

Definition M (A : Type) : Type := world → world * outcome A.

Definition ret {A} (a : A) : M A := λ w, (w, Ret a).

Definition bind {A B} (m : M A) (k : A → M B) : M B :=
  λ w, match m w with
       | (w', Ret a) => k a w'
       | (w', Exited c) => (w', Exited c)
       | (w', Panicked) => (w', Panicked)
       end.

Global Instance M_ret : MRet M := @ret.
Global Instance M_bind : MBind M := λ A B k m, bind m k.

(** [os.Exit(code)]: the process ends at once; deferred calls do not run. *)
Definition osExit {A} (code : Z) : M A := λ w, (w, Exited code).

(** A run-time panic (nil dereference, index out of range). *)
Definition panic {A} : M A := λ w, (w, Panicked).

Definition emit (e : event) : M unit :=
  λ w, (mkWorld (session w) (out w ++ [e]), Ret tt).

Definition getSession : M sessionV5 := λ w, (w, Ret (session w)).

Definition putSession (s : sessionV5) : M unit :=
  λ w, (mkWorld s (out w), Ret tt).

Definition when (b : bool) (m : M unit) : M unit := if b then m else ret tt.

(** [defer d; body]: [d] runs when [body] returns and while a panic
    unwinds, not when the process exits. *)
Definition defer {A} (d : M unit) (body : M A) : M A :=
  λ w, match body w with
       | (w', Ret a) =>
           match d w' with
           | (w'', Ret _) => (w'', Ret a)
           | (w'', Exited c) => (w'', Exited c)
           | (w'', Panicked) => (w'', Panicked)
           end
       | (w', Exited c) => (w', Exited c)
       | (w', Panicked) => (fst (d w'), Panicked)
       end.

(** ** Console and progress bar *)

(** Modelled from the spec: [errorIf] (declared outside this file) reports
    the error to the user and returns. *)
Definition errorIf (err : probeError) (msg : string) : M unit :=
  emit (EvErrorIf err msg).

(** Modelled from the spec: [fatalIf] (declared outside this file) reports
    a non-nil error and terminates the process with a non-zero status. *)
Definition fatalIf {A} (err : probeError) (msg : string) : M A :=
  emit (EvFatalIf err msg);; osExit 1.

(** A method call through the [*barSend] pointer: a nil pointer is
    dereferenced by the call and the goroutine panics. *)
Definition barDo (progressReader : option barSend) (c : barCall) : M unit :=
  match progressReader with
  | Some _ => emit (EvBar c)
  | None => panic
  end.

(** ** Session store *)

(** Modelled from the spec: the methods of [sessionV5] (declared outside
    this file).  [Save] durably persists the header; [Delete] removes header
    and log; [CloseAndDie] persists the header, then terminates the process
    with a non-zero status, leaving the session resumable;
    [NewDataWriter] and [NewDataReader] are append and read handles over
    the log. *)
Definition sessionSave : M unit :=
  s ← getSession;
  putSession (mkSession (Header s) (Some (Header s)) (dataFile s));;
  emit (EvSave (Header s)).

Definition sessionDelete : M unit :=
  s ← getSession;
  putSession (mkSession (Header s) None None);;
  emit EvDelete.

Definition sessionCloseAndDie {A} : M A :=
  sessionSave;; osExit 1.

Definition sessionNewDataWriter : M unit := emit EvNewDataWriter.

Definition sessionNewDataReader : M (list string) :=
  s ← getSession; mret (default [] (dataFile s)).

(** [fmt.Fprintln(dataFP, line)]. *)
Definition fprintln (line : string) : M unit :=
  s ← getSession;
  putSession (mkSession (Header s) (savedHeader s)
                        (Some (default [] (dataFile s) ++ [line])));;
  emit (EvFprintln line).

Definition modifyHeader (f : sessionHeader → sessionHeader) : M unit :=
  s ← getSession;
  putSession (mkSession (f (Header s)) (savedHeader s) (dataFile s)).

(** ** The scanner of the log *)

(** [bufio.MaxScanTokenSize]. *)
Definition MaxScanTokenSize : Z := 64 * 1024.

(** [bufio.NewScanner(r)] with the split function and the buffer it has by
    default, given by the tokens its [Scan] loop yields over the lines of
    [r].  A line and its newline have to fit the buffer, which grows to
    [MaxScanTokenSize] bytes and no further: at the first line that does
    not fit, [Scan] answers false for good, and the error stays in
    [scanner.Err()].  The lines of the log are JSON texts as
    [json.Marshal] gives them, with no newline and no carriage return of
    their own, so that a token is a line. *)
Fixpoint NewScanner (lines : list string) : list string :=
  match lines with
  | [] => []
  | line :: lines' =>
      if Z.of_nat (String.length line) <? MaxScanTokenSize
      then line :: NewScanner lines' else []
  end.

(** ** Channels *)

(** What a [select] over a data channel and the trap channel yields. *)
Inductive selected (A : Type) : Type :=
  | Recv (a : A)
  | Trapped.
Arguments Recv {A} a.
Arguments Trapped {A}.

(** The sequence of cases a [for { select { ... } }] loop takes when the
    data channel delivers [ch] and is then closed, and the trap channel
    becomes the chosen case after [n] receptions ([trapCh = Some n]) or
    never ([None]).  The loops below stop at the first [Trapped]. *)
Fixpoint selectLoop {A} (ch : list A) (trapCh : option nat) : list (selected A) :=
  match trapCh, ch with
  | Some O, _ => [Trapped]
  | _, [] => []
  | _, a :: ch' => Recv a :: selectLoop ch' (Nat.pred <$> trapCh)
  end.

(** ** The runtime version (first-time.go) *)

(** Go strings are byte strings.  The functions of package [strings] and
    the two regular expressions of [getNormalizedGolangVersion] are given
    on bytes: every pattern and every cutset met here is ASCII, on which
    bytes and runes agree. *)

(** [strings.HasPrefix] with the rest of the string. *)
Fixpoint stripPrefix (prefix s : string) : option string :=
  match prefix, s with
  | EmptyString, _ => Some s
  | String a prefix', String b s' =>
      if Ascii.eqb a b then stripPrefix prefix' s' else None
  | String _ _, EmptyString => None
  end.

(** [strings.TrimPrefix(s, prefix)]. *)
Definition TrimPrefix (s prefix : string) : string :=
  default s (stripPrefix prefix s).

(** Whether [c] is one of the characters of [cutset]. *)
Fixpoint inCutset (c : Ascii.ascii) (cutset : string) : bool :=
  match cutset with
  | EmptyString => false
  | String a cutset' => Ascii.eqb a c || inCutset c cutset'
  end.

(** [strings.TrimRight(s, cutset)]: [s] without its trailing characters
    that belong to [cutset], which is a set of characters and not a
    suffix. *)
Fixpoint TrimRight (s cutset : string) : string :=
  match s with
  | EmptyString => EmptyString
  | String c s' =>
      match TrimRight s' cutset with
      | EmptyString => if inCutset c cutset then EmptyString else String c EmptyString
      | t => String c t
      end
  end.

(** The class [[0-9]]. *)
Definition isDigit (c : Ascii.ascii) : bool :=
  (48 <=? Ascii.nat_of_ascii c)%nat && (Ascii.nat_of_ascii c <=? 57)%nat.

(** [regexp.MustCompile(literal + "[0-9]").FindString(s)]: the leftmost
    occurrence of [literal] followed by a digit, or the empty string.
    [betaRegexp] and [rcRegexp] are of this shape. *)
Fixpoint findLiteralDigit (literal s : string) : string :=
  match s with
  | EmptyString => EmptyString
  | String _ s' =>
      match stripPrefix literal s with
      | Some (String d _) =>
          if isDigit d then literal +:+ String d EmptyString
          else findLiteralDigit literal s'
      | _ => findLiteralDigit literal s'
      end
  end.

(** [runtimeVersion] is [runtime.Version()]. *)
Definition getNormalizedGolangVersion (runtimeVersion : string) : string :=
  let version := TrimPrefix runtimeVersion "go" in
  let betaStr := findLiteralDigit "beta" version in
  let version := TrimRight version betaStr in
  let rcStr := findLiteralDigit "rc" version in
  let version := TrimRight version rcStr in
  version.


(** The characters of a release number: digits and the dot. *)
Definition versionChar (c : Ascii.ascii) : bool := isDigit c || Ascii.eqb c (Ascii.ascii_of_nat 46).

(** Every character of [s] satisfies [P]. *)
Fixpoint allChars (P : Ascii.ascii → bool) (s : string) : bool :=
  match s with
  | EmptyString => true
  | String c s' => P c && allChars P s'
  end.

(** The command line as [mainMirror] reads it: [ctx.Args()] and
    [ctx.Bool(name)]. *)
Record cliContext : Type := mkContext {
  ctxArgs : list string;
  ctxBool : string → bool
}.

(** ** A concrete session *)

Module Fixture.

Definition transferUnit (url : string) (size : Z) : mirrorURLs :=
  mkMirrorURLs (mkContent url size) [mkContent ("backup/" +:+ url) size] None.

(** The zero value of [mirrorURLs]. *)
Definition zero : mirrorURLs := mkMirrorURLs (mkContent "" 0) [] None.

(** A store in which one object cannot be opened. *)
Definition getSource (url : string) : readCloser * Z * option probeError :=
  if bool_decide (url = "photos/missing")
  then (nilReader, 0, Some (NewError (PathNotFound url)))
  else (sourceStream url, 10, None).

Definition putTargets (urls : list string) (length : Z) (r : readCloser)
    : option probeError := None.

(** A source tree with objects of sizes 10, 20 and 30. *)
Definition prepareMirrorURLs (source : string) (targets : list string)
    (isForce : bool) : list mirrorURLs :=
  [transferUnit "photos/a" 10; transferUnit "photos/b" 20;
   transferUnit "photos/c" 30].

Definition isEmpty (sURLs : mirrorURLs) : bool :=
  bool_decide (Size (SourceContent sURLs) = 0)
  && bool_decide (TargetContents sURLs = []).

(** A line format that keeps the source URL. *)
Definition jsonMarshal (sURLs : mirrorURLs) : string + goError :=
  inl (URL (SourceContent sURLs)).

(** Its decoder; the line with a lone brace is malformed: the variable
    stays at its zero value and an error is returned. *)
Definition jsonUnmarshal (line : string) : mirrorURLs * option goError :=
  if bool_decide (line = "{")
  then (zero, Some (OtherError "unexpected end of JSON input"))
  else (transferUnit line 10, None).

(** Modelled from the spec: [HasData] (declared outside this file) tells
    that the log is already populated from a prior run. *)
Definition HasData (s : sessionV5) : bool :=
  match dataFile s with
  | Some (_ :: _) => true
  | _ => false
  end.

(** Modelled from the spec: the resume predicate built by [isCopiedFactory]
    (declared outside this file).  A unit is already applied when it stands
    at or before the position of [LastCopied] in the log; with an empty
    [LastCopied] every unit is pending.  The closure remembers whether the
    marker has been passed. *)
Definition copiedState : Type := string * bool.

Definition isCopiedFactory (lastCopied : string) : copiedState :=
  (lastCopied, false).

Definition isCopied (st : copiedState) (sourceURL : string) : bool * copiedState :=
  if bool_decide (st.1 = "") then (false, st)
  else if st.2 then (false, st)
  else if bool_decide (sourceURL = st.1) then (true, (st.1, true))
  else (true, st).

Definition header : sessionHeader :=
  mkHeader "mirror" ["photos"; "backup"] ∅ 0 0 "" "/home/user".

(** A session just created: nothing saved, an empty log. *)
Definition fresh : world := mkWorld (mkSession header None (Some [])) [].

(** The same session after preparation and one checkpoint. *)
Definition resumedHeader : sessionHeader :=
  setLastCopied (setTotals header 60 3) "photos/a".

Definition resumed : world :=
  mkWorld (mkSession resumedHeader (Some resumedHeader)
                     (Some ["photos/a"; "photos/b"; "photos/c"])) [].

End Fixture.

(** ** A concrete invocation *)

(** [mc mirror --force photos backup], run from [/home/user]. *)
Module Invocation.

Definition ctx : cliContext :=
  mkContext ["photos"; "backup"] (λ flag, bool_decide (flag = "force")).

Definition checkMirrorSyntax (ctx : cliContext) : M unit := ret tt.

(** A new session: an empty header, nothing on disk. *)
Definition created : sessionV5 :=
  mkSession (mkHeader EmptyString [] ∅ 0 0 EmptyString EmptyString) None None.

Definition newSessionV5 : M sessionV5 := ret created.

Definition osGetwd : string * option goError := ("/home/user", None).

(** A working folder that has been removed. *)
Definition osGetwdFails : string * option goError :=
  (EmptyString, Some (OtherError "getwd: no such file or directory")).

Definition args2URLs (args : list string) : list string * option probeError :=
  (args, None).

(** A source tree in which one object cannot be read. *)
Definition prepareMirrorURLs (source : string) (targets : list string)
    (isForce : bool) : list mirrorURLs :=
  [Fixture.transferUnit "photos/a" 10;
   setError (Fixture.transferUnit "photos/b" 20)
            (Some (NewError (PathInsufficientPermission "photos/b")));
   Fixture.transferUnit "photos/c" 30].

(** A source tree with two objects whose sizes add up to [2^63]. *)
Definition prepareLargeTree (source : string) (targets : list string)
    (isForce : bool) : list mirrorURLs :=
  [Fixture.transferUnit "disk/a" 9223372036854775807;
   Fixture.transferUnit "disk/b" 1].

(** A line of [n] characters. *)
Fixpoint padding (n : nat) : string :=
  match n with
  | O => EmptyString
  | S n' => String (Ascii.ascii_of_nat 120) (padding n')
  end.

(** A line of 64 KiB. *)
Definition longLine : string := padding (Z.to_nat MaxScanTokenSize).

(** The resumed session of the fixture with that line as the second line
    of its log. *)
Definition resumedLong : world :=
  mkWorld (mkSession Fixture.resumedHeader (Some Fixture.resumedHeader)
                     (Some ["photos/a"; longLine; "photos/c"])) [].

End Invocation.

(** ** The engine *)

Section Engine.

(** The global output-mode flags. *)
Variables globalQuietFlag globalJSONFlag globalDebugFlag : bool.

Local Abbreviation interactive := (negb globalQuietFlag && negb globalJSONFlag).

(** The storage collaborators: [getSource] returns the stream, its length
    and an error; [putTargets] returns an error. *)
Variable getSource : string → readCloser * Z * option probeError.
Variable putTargets : list string → Z → readCloser → option probeError.

(** The enumeration of the source tree, as the finite sequence that its
    channel delivers, and the emptiness test of a unit. *)
Variable prepareMirrorURLs : string → list string → bool → list mirrorURLs.
Variable isEmpty : mirrorURLs → bool.

(** [encoding/json]: [jsonUnmarshal line] is the value left in a
    zero-initialised [mirrorURLs] variable, and the error returned. *)
Variable jsonMarshal : mirrorURLs → string + goError.
Variable jsonUnmarshal : string → mirrorURLs * option goError.

(** [session.HasData()]. *)
Variable HasData : sessionV5 → bool.

(** The closure returned by [isCopiedFactory(lastCopied)]: its captured
    state, and one call. *)
Variable copiedState : Type.
Variable isCopiedFactory : string → copiedState.
Variable isCopied : copiedState → string → bool * copiedState.

(** *** doMirror *)

(** [printMsg(mirrorMessage{Source: source, Targets: targets})]. *)
Definition printMsg (source : string) (targets : list string) : M unit :=
  emit (EvPrintMsg source targets).

(** [statusCh <- status]. *)
Definition send (status : mirrorURLs) : M unit := emit (EvSend status).

Definition doMirror (sURLs : mirrorURLs) (progressReader : option barSend)
    (accountingReader : accounter) : M unit :=
  defer (emit (EvWgDone mirrorWg)) (
  defer (emit EvRelease) (
    match Error sURLs with
    | Some err =>
        send (setError sURLs (Some (Trace err [])))
    | None =>
        let url := URL (SourceContent sURLs) in
        when (negb globalQuietFlag && negb globalJSONFlag)
             (barDo progressReader (SetCaption (url +:+ ": ")));;
        emit (EvGetSource url);;
        let '(reader, length, err) := getSource url in
        match err with
        | Some err =>
            when (negb globalQuietFlag && negb globalJSONFlag)
                 (barDo progressReader (ErrorGet length));;
            send (setError sURLs (Some (Trace err [url])))
        | None =>
            let targetURLs := URL <$> TargetContents sURLs in
            newReader ←
              (if globalQuietFlag || globalJSONFlag then
                 printMsg url targetURLs;;
                 let r1 := if globalJSONFlag then reader else nilReader in
                 let r2 := if globalQuietFlag then accountingProxy reader else r1 in
                 mret r2
               else
                 barDo progressReader (NewProxyReader reader);;
                 mret (progressProxy reader));
            defer (emit (EvReaderClose newReader)) (
              emit (EvPutTargets targetURLs length newReader);;
              match putTargets targetURLs length newReader with
              | Some err =>
                  when (negb globalQuietFlag && negb globalJSONFlag)
                       (barDo progressReader (ErrorPut length));;
                  send (setError sURLs (Some (Trace err targetURLs)))
              | None =>
                  send (setError sURLs None)
              end)
        end
    end)).

(** *** doMirrorFake *)

Definition doMirrorFake (sURLs : mirrorURLs) (progressReader : option barSend)
    : M unit :=
  when (negb globalDebugFlag && negb globalJSONFlag)
       (barDo progressReader (Progress (Size (SourceContent sURLs)))).

(** *** doPrepareMirrorURLs *)

(** The [for done == false { select ... }] loop, with its two
    accumulators: [totalBytes] is an [int64] and [totalObjects] an [int],
    64 bits wide on the platforms of the command. *)
Fixpoint prepareLoop (sel : list (selected mirrorURLs))
    (totalBytes totalObjects : Z) : M (Z * Z) :=
  match sel with
  | [] => mret (totalBytes, totalObjects)
  | Recv sURLs :: sel' =>
      match Error sURLs with
      | Some err =>
          when (negb globalQuietFlag && negb globalJSONFlag) (emit EvEraseline);;
          errorIf (Trace err []) "Unable to prepare URLs for mirroring.";;
          prepareLoop sel' totalBytes totalObjects
      | None =>
          if isEmpty sURLs then prepareLoop sel' totalBytes totalObjects
          else
            jsonData ←
              match jsonMarshal sURLs with
              | inr err =>
                  sessionDelete;;
                  fatalIf (NewError err) "Unable to marshal URLs into JSON."
              | inl jsonData => mret jsonData
              end;
            fprintln jsonData;;
            when (negb globalQuietFlag && negb globalJSONFlag)
                 (emit (EvScanBar (URL (SourceContent sURLs))));;
            prepareLoop sel'
              (Int64.add totalBytes (Size (SourceContent sURLs)))
              (Int64.add totalObjects 1)
      end
  | Trapped :: _ =>
      when (negb globalQuietFlag && negb globalJSONFlag) (emit EvEraseline);;
      sessionDelete;;
      osExit 0
  end.

Definition doPrepareMirrorURLs (isForce : bool) (trapCh : option nat) : M unit :=
  s ← getSession;
  match CommandArgs (Header s) with
  | [] => panic
  | sourceURL :: targetURLs =>
      sessionNewDataWriter;;
      let URLsCh := prepareMirrorURLs sourceURL targetURLs isForce in
      totals ← prepareLoop (selectLoop URLsCh trapCh) 0 0;
      modifyHeader (λ h, setTotals h totals.1 totals.2);;
      sessionSave
  end.

(** *** doMirrorSession *)

(** The sequential prologue of [doMirrorSession]: preparation when the
    session has no data, then the readers, the scanner over the log and
    the resume closure.  Its two goroutines follow. *)
Definition doMirrorSession_prepare (trapCh : option nat) : M unit :=
  s ← getSession;
  let isForce := default false (CommandBoolFlags (Header s) !! "force") in
  when (negb (HasData s)) (doPrepareMirrorURLs isForce trapCh).

Definition doMirrorSession_readers
    : M (accounter * option barSend * list string * copiedState) :=
  s ← getSession;
  let accntReader := newAccounter (TotalBytes (Header s)) in
  let progressReader :=
    if negb globalQuietFlag && negb globalJSONFlag
    then Some (newProgressBar (TotalBytes (Header s))) else None in
  reader ← sessionNewDataReader;
  let scanner := NewScanner reader in
  let isCopied := isCopiedFactory (LastCopied (Header s)) in
  mret (accntReader, progressReader, scanner, isCopied).

(** The body of the status monitor for one received status. *)
Definition onStatus (sURLs : mirrorURLs) : M unit :=
  match Error sURLs with
  | None =>
      modifyHeader (λ h, setLastCopied h (URL (SourceContent sURLs)));;
      sessionSave
  | Some err =>
      when (negb globalQuietFlag && negb globalJSONFlag) (emit EvEraseline);;
      errorIf (Trace err [])
        ("Failed to mirror ‘" +:+ URL (SourceContent sURLs) +:+ "’.");;
      match ToGoError err with
      | BrokenSymlink _ => mret tt
      | TooManyLevelsSymlink _ => mret tt
      | PathNotFound _ => mret tt
      | PathInsufficientPermission _ => mret tt
      | _ => sessionCloseAndDie
      end
  end.

Definition onTrap : M unit :=
  when (negb globalQuietFlag && negb globalJSONFlag) (emit EvEraseline);;
  sessionCloseAndDie.

(** The [for { select ... }] loop of the goroutine that monitors the status
    channel and the trap. *)
Fixpoint statusLoop (sel : list (selected mirrorURLs))
    (progressReader : option barSend) (accntReader : accounter) : M unit :=
  match sel with
  | [] =>
      if negb globalQuietFlag && negb globalJSONFlag
      then barDo progressReader Finish
      else emit (EvPrintStat accntReader)
  | Recv sURLs :: sel' =>
      onStatus sURLs;; statusLoop sel' progressReader accntReader
  | Trapped :: sel' =>
      onTrap;; statusLoop sel' progressReader accntReader
  end.

(** The goroutine that monitors the status channel and the trap. *)
Definition statusMonitor (sel : list (selected mirrorURLs))
    (progressReader : option barSend) (accntReader : accounter) : M unit :=
  defer (emit (EvWgDone wg)) (statusLoop sel progressReader accntReader).

(** The [for scanner.Scan()] loop of the goroutine that scans the log and
    starts the transfer tasks. *)
Fixpoint scanLoop (lines : list string) (isCopiedSt : copiedState)
    (progressReader : option barSend) : M unit :=
  match lines with
  | [] => mret tt
  | line :: lines' =>
      let sURLs := (jsonUnmarshal line).1 in
      let '(copied, isCopiedSt') := isCopied isCopiedSt (URL (SourceContent sURLs)) in
      (if copied then doMirrorFake sURLs progressReader
       else emit EvAcquire;; emit (EvWgAdd mirrorWg);; emit (EvGo sURLs));;
      scanLoop lines' isCopiedSt' progressReader
  end.

(** The goroutine that performs the mirroring. *)
Definition mirrorRoutine (scanner : list string) (isCopiedSt : copiedState)
    (progressReader : option barSend) : M unit :=
  defer (emit (EvWgDone wg)) (
  defer (emit EvCloseStatusCh) (
    scanLoop scanner isCopiedSt progressReader;;
    emit (EvWgWait mirrorWg))).

(** The capacity of [mirrorQueue]:
    [int(math.Max(float64(runtime.NumCPU())-1, 1))].  The conversions to
    and from [float64] are exact on every processor count below [2^53]. *)
Definition mirrorQueueCap (NumCPU : Z) : Z := Z.max (NumCPU - 1) 1.

(** ** Specification-side vocabulary *)

(** The skip class of the error taxonomy: broken symlink, too many levels
    of symlink, path not found, insufficient permission. *)
Definition skipClass (e : goError) : bool :=
  match e with
  | BrokenSymlink _ | TooManyLevelsSymlink _
  | PathNotFound _ | PathInsufficientPermission _ => true
  | OtherError _ => false
  end.

(** The session is preserved for a resume: the header on disk is the header
    in memory, and the log on disk is the one of [w]. *)
Definition preserved (w w' : world) : Prop :=
  savedHeader (session w') = Some (Header (session w'))
  ∧ dataFile (session w') = dataFile (session w).

(** The session is discarded: neither header nor log is left on disk. *)
Definition discarded (w' : world) : Prop :=
  savedHeader (session w') = None ∧ dataFile (session w') = None.

(** The console report of a failed unit. *)
Definition failureReport (sURLs : mirrorURLs) (err : probeError) : list event :=
  (if negb globalQuietFlag && negb globalJSONFlag then [EvEraseline] else [])
  ++ [EvErrorIf (Trace err [])
        ("Failed to mirror ‘" +:+ URL (SourceContent sURLs) +:+ "’.")].

Definition addOut (w : world) (tr : list event) : world :=
  mkWorld (session w) (out w ++ tr).

Definition isSave (e : event) : bool :=
  match e with EvSave _ => true | _ => false end.

Definition isGo (e : event) : bool :=
  match e with EvGo _ => true | _ => false end.

Definition isSend (e : event) : bool :=
  match e with EvSend _ => true | _ => false end.

Definition isPutTargets (e : event) : bool :=
  match e with EvPutTargets _ _ _ => true | _ => false end.

Definition isRelease (e : event) : bool :=
  match e with EvRelease => true | _ => false end.

Definition isAcquire (e : event) : bool :=
  match e with EvAcquire => true | _ => false end.

(** A unit the preparation loop writes to the log: no enumeration error and
    not empty. *)
Definition loggable (sURLs : mirrorURLs) : bool :=
  bool_decide (Error sURLs = None) && negb (isEmpty sURLs).

Definition sumSizes (units : list mirrorURLs) : Z :=
  foldr (λ u acc, Size (SourceContent u) + acc) 0 units.

(** The log file with [lines] appended. *)
Definition appendLog (s : sessionV5) (lines : list string) : sessionV5 :=
  mkSession (Header s) (savedHeader s) (Some (default [] (dataFile s) ++ lines)).

Definition dropSession (s : sessionV5) : sessionV5 :=
  mkSession (Header s) None None.

(** The units of the log in order, each with the answer of the resume
    closure at its turn. *)
Fixpoint resumePlan (lines : list string) (isCopiedSt : copiedState)
    : list (mirrorURLs * bool) :=
  match lines with
  | [] => []
  | line :: lines' =>
      let sURLs := (jsonUnmarshal line).1 in
      let '(copied, isCopiedSt') := isCopied isCopiedSt (URL (SourceContent sURLs)) in
      (sURLs, copied) :: resumePlan lines' isCopiedSt'
  end.

(** What the scanner does for one unit of the plan: a progress replay for a
    copied unit, a slot, a wait-group ticket and a task for a pending
    one. *)
Definition planEvents (p : mirrorURLs * bool) : list event :=
  if p.2 then
    if negb globalDebugFlag && negb globalJSONFlag
    then [EvBar (Progress (Size (SourceContent p.1)))] else []
  else [EvAcquire; EvWgAdd mirrorWg; EvGo p.1].

(** The units of the plan that are pending. *)
Definition pendingUnits (plan : list (mirrorURLs * bool)) : list mirrorURLs :=
  fst <$> List.filter (λ p, negb p.2) plan.

(** ** The bounded pool *)

(** The calls a computation makes when started on session [s]. *)
Definition callsOf {A} (m : M A) (s : sessionV5) : list event :=
  out (m (mkWorld s [])).1.

(** The execution phase as interleaved threads: the scanner and the tasks
    it has started, each by the calls it has still to make, and the number
    of values held by [mirrorQueue]. *)
Record pool : Type := mkPool {
  queued : nat;
  scannerTodo : list event;
  tasksTodo : list (list event)
}.

(** One call of one thread.  [mirrorQueue] is a buffered channel of
    capacity [cap]: the send of the scanner waits while it holds [cap]
    values, the receive of a task takes one out.  [go doMirror] adds a
    thread with the calls [task sURLs] of that task. *)
Inductive poolStep (cap : nat) (task : mirrorURLs → list event) : relation pool :=
  | step_acquire n rest ts :
      (n < cap)%nat →
      poolStep cap task (mkPool n (EvAcquire :: rest) ts) (mkPool (S n) rest ts)
  | step_go n sURLs rest ts :
      poolStep cap task (mkPool n (EvGo sURLs :: rest) ts)
                        (mkPool n rest (ts ++ [task sURLs]))
  | step_scanner n e rest ts :
      isAcquire e = false → isGo e = false →
      poolStep cap task (mkPool n (e :: rest) ts) (mkPool n rest ts)
  | step_release n sc ts1 rest ts2 :
      poolStep cap task (mkPool (S n) sc (ts1 ++ (EvRelease :: rest) :: ts2))
                        (mkPool n sc (ts1 ++ rest :: ts2))
  | step_task n sc ts1 e rest ts2 :
      isRelease e = false →
      poolStep cap task (mkPool n sc (ts1 ++ (e :: rest) :: ts2))
                        (mkPool n sc (ts1 ++ rest :: ts2)).

(** The releases the started tasks have still to make, and the tasks that
    have not released yet. *)
Definition pendingReleases (ts : list (list event)) : nat :=
  length (List.filter isRelease (concat ts)).

Definition holders (ts : list (list event)) : nat :=
  length (List.filter (existsb isRelease) ts).

(** In the scanner's calls, sends to [mirrorQueue] and starts of tasks
    alternate; [holding] tells whether a slot has been taken for a task not
    started yet. *)
Fixpoint alternates (holding : bool) (calls : list event) : bool :=
  match calls with
  | [] => true
  | EvAcquire :: rest => negb holding && alternates true rest
  | EvGo _ :: rest => holding && alternates false rest
  | _ :: rest => alternates holding rest
  end.

Definition poolInv (cap : nat) (p : pool) : Prop :=
  ∃ holding : bool,
    alternates holding (scannerTodo p) = true
    ∧ queued p = ((if holding then 1 else 0) + pendingReleases (tasksTodo p))%nat
    ∧ (queued p ≤ cap)%nat.

(** ** The command entry point *)

Definition setCommandType (h : sessionHeader) (t : string) : sessionHeader :=
  mkHeader t (CommandArgs h) (CommandBoolFlags h)
           (TotalBytes h) (TotalObjects h) (LastCopied h) (RootPath h).

Definition setRootPath (h : sessionHeader) (path : string) : sessionHeader :=
  mkHeader (CommandType h) (CommandArgs h) (CommandBoolFlags h)
           (TotalBytes h) (TotalObjects h) (LastCopied h) path.

Definition setCommandBoolFlags (h : sessionHeader) (flags : gmap string bool)
    : sessionHeader :=
  mkHeader (CommandType h) (CommandArgs h) flags
           (TotalBytes h) (TotalObjects h) (LastCopied h) (RootPath h).

Definition setCommandArgs (h : sessionHeader) (args : list string) : sessionHeader :=
  mkHeader (CommandType h) args (CommandBoolFlags h)
           (TotalBytes h) (TotalObjects h) (LastCopied h) (RootPath h).

(** [fmt.Sprintf] of a slice of strings under the verb [%s]: the elements
    between brackets, separated by spaces. *)
Fixpoint joinSpaces (l : list string) : string :=
  match l with
  | [] => EmptyString
  | [x] => x
  | x :: l' => x +:+ " " +:+ joinSpaces l'
  end.

Definition sprintSlice (l : list string) : string := "[" +:+ joinSpaces l +:+ "]".

(** The collaborators of [mainMirror], all declared outside this file: the
    syntax check of the command line, which may end the process; the
    creation of the session, which may too; [os.Getwd()] and [args2URLs],
    each with the value and the error it returns. *)
Variable checkMirrorSyntax : cliContext → M unit.
Variable newSessionV5 : M sessionV5.
Variable osGetwd : string * option goError.
Variable args2URLs : list string → list string * option probeError.

(** [doMirrorSession]: its prologue, then its two goroutines and their
    join, which [goroutines] stands for. *)
Definition doMirrorSession (trapCh : option nat)
    (goroutines : accounter → option barSend → list string → copiedState → M unit)
    : M unit :=
  doMirrorSession_prepare trapCh;;
  r ← doMirrorSession_readers;
  goroutines r.1.1.1 r.1.1.2 r.1.2 r.2.

(** [mainMirror], with the call [doMirrorSession(session)] as
    [runSession].  [console.SetColor] sets the theme of later output and
    makes no call of its own. *)
Definition mainMirror (ctx : cliContext) (runSession : M unit) : M unit :=
  checkMirrorSyntax ctx;;
  session ← newSessionV5;
  putSession session;;
  modifyHeader (λ h, setCommandType h "mirror");;
  modifyHeader (λ h, setRootPath h osGetwd.1);;
  match osGetwd.2 with
  | Some e =>
      sessionDelete;;
      fatalIf (NewError e) "Unable to get current working folder."
  | None => mret tt
  end;;
  let isForce := ctxBool ctx "force" in
  modifyHeader (λ h, setCommandBoolFlags h (<["force" := isForce]> (CommandBoolFlags h)));;
  let r := args2URLs (ctxArgs ctx) in
  modifyHeader (λ h, setCommandArgs h r.1);;
  match r.2 with
  | Some err =>
      sessionDelete;;
      fatalIf (Trace err (ctxArgs ctx))
        ("One or more unknown argument types found in ‘"
           +:+ sprintSlice (ctxArgs ctx) +:+ "’.")
  | None => mret tt
  end;;
  runSession;;
  sessionDelete.

(** The session [mainMirror] hands to [doMirrorSession]. *)
Definition commandSession (ctx : cliContext) (s : sessionV5) : sessionV5 :=
  mkSession
    (setCommandArgs
       (setCommandBoolFlags
          (setRootPath (setCommandType (Header s) "mirror") osGetwd.1)
          (<["force" := ctxBool ctx "force"]> (CommandBoolFlags (Header s))))
       (args2URLs (ctxArgs ctx)).1)
    (savedHeader s) (dataFile s).

(** ** More vocabulary *)

(** The progress bar [doMirrorSession] sets up for the output mode. *)
Definition sessionProgressReader (total : Z) : option barSend :=
  if negb globalQuietFlag && negb globalJSONFlag
  then Some (newProgressBar total) else None.

(** The stream a task hands to [putTargets], by output mode. *)
Definition taskReader (reader : readCloser) : readCloser :=
  if globalQuietFlag then accountingProxy reader
  else if globalJSONFlag then reader
  else progressProxy reader.

Definition isGetSource (e : event) : bool :=
  match e with EvGetSource _ => true | _ => false end.

Definition isReaderClose (e : event) : bool :=
  match e with EvReaderClose _ => true | _ => false end.

Definition isErrorIf (e : event) : bool :=
  match e with EvErrorIf _ _ => true | _ => false end.

(** A report to the user: [errorIf] or [fatalIf]. *)
Definition isReport (e : event) : bool :=
  match e with EvErrorIf _ _ | EvFatalIf _ _ => true | _ => false end.

Definition isCloseStatusCh (e : event) : bool :=
  match e with EvCloseStatusCh => true | _ => false end.

(** The terminal accounting of a run: the end of the progress bar, or the
    accounting line. *)
Definition isTerminal (e : event) : bool :=
  match e with EvBar Finish | EvPrintStat _ => true | _ => false end.

(** The cases that end the status monitor: the trap, and a status with an
    error outside the skip class. *)
Definition stops (c : selected mirrorURLs) : bool :=
  match c with
  | Trapped => true
  | Recv sURLs =>
      match Error sURLs with
      | Some err => negb (skipClass (ToGoError err))
      | None => false
      end
  end.

(** The body of the monitor's loop for one case of its [select]. *)
Definition onCase (c : selected mirrorURLs) : M unit :=
  match c with
  | Recv sURLs => onStatus sURLs
  | Trapped => onTrap
  end.

(** The cases the monitor goes through: up to the first that stops it. *)
Fixpoint untilStop (sel : list (selected mirrorURLs)) : list (selected mirrorURLs) :=
  match sel with
  | [] => []
  | c :: sel' => if stops c then [c] else c :: untilStop sel'
  end.

(** The source URLs of the successes among the cases. *)
Definition successes (sel : list (selected mirrorURLs)) : list string :=
  omap (λ c, match c with
             | Recv sURLs =>
                 if Error sURLs is None then Some (URL (SourceContent sURLs)) else None
             | Trapped => None
             end) sel.

(** The enumeration errors among the units received. *)
Definition enumerationErrors (ch : list mirrorURLs) : list probeError :=
  omap Error ch.

(** ** Proof support *)

Ltac unfold_m :=
  unfold onStatus, onTrap, sessionCloseAndDie, sessionSave, sessionDelete,
    sessionNewDataWriter, sessionNewDataReader, fprintln, modifyHeader,
    errorIf, fatalIf, printMsg, send, barDo, when, getSession, putSession,
    emit, osExit, panic, defer, mbind, M_bind, bind, mret, M_ret, ret in *.

Ltac run := simpl in *; unfold_m; simpl in *.

(** Case analysis over every path of [doMirror]. *)
Ltac doMirror_paths sURLs progressReader :=
  unfold doMirror;
  let Hg := fresh "Hg" in
  let Hp := fresh "Hp" in
  destruct (Error sURLs) as [?|];
  destruct globalQuietFlag, globalJSONFlag, progressReader; run;
  try (destruct (getSource (URL (SourceContent sURLs))) as [[? ?] [?|]] eqn:Hg; run);
  try match goal with
      | |- context [putTargets ?a ?b ?c] =>
          destruct (putTargets a b c) as [?|] eqn:Hp; run
      end;
  rewrite <- ?app_assoc; simpl.

(** ** Facts about [int64] *)

Ltac int64_literals :=
  change (2 ^ 64) with 18446744073709551616 in *;
  change (2 ^ 63) with 9223372036854775808 in *.

Lemma Int64_wrap_in_range z : Int64.in_range (Int64.wrap z).
Proof.
  unfold Int64.in_range, Int64.wrap, Int64.min_int, Int64.max_int.
  pose proof (Z.mod_pos_bound (z + 2 ^ 63) (2 ^ 64) eq_refl).
  int64_literals. lia.
Qed.

Lemma Int64_wrap_id z : Int64.in_range z → Int64.wrap z = z.
Proof.
  unfold Int64.in_range, Int64.wrap, Int64.min_int, Int64.max_int. intros Hz.
  rewrite Z.mod_small; int64_literals; lia.
Qed.

Lemma Int64_wrap_add_l a b :
  Int64.wrap (Int64.wrap a + b) = Int64.wrap (a + b).
Proof.
  unfold Int64.wrap.
  replace ((a + 2 ^ 63) `mod` 2 ^ 64 - 2 ^ 63 + b + 2 ^ 63)
    with ((a + 2 ^ 63) `mod` 2 ^ 64 + b) by lia.
  replace (a + b + 2 ^ 63) with (a + 2 ^ 63 + b) by lia.
  by rewrite Zplus_mod_idemp_l.
Qed.

(** ** Worlds *)

Lemma addOut_nil w : addOut w [] = w.
Proof. destruct w. unfold addOut. simpl. by rewrite app_nil_r. Qed.

Lemma addOut_app w tr1 tr2 : addOut (addOut w tr1) tr2 = addOut w (tr1 ++ tr2).
Proof. unfold addOut. simpl. by rewrite app_assoc. Qed.

(** ** The status monitor *)

(** What [onStatus] does on a success. *)
Lemma onStatus_success sURLs w :
  Error sURLs = None →
  let h := setLastCopied (Header (session w)) (URL (SourceContent sURLs)) in
  onStatus sURLs w =
    (mkWorld (mkSession h (Some h) (dataFile (session w))) (out w ++ [EvSave h]),
     Ret tt).
Proof. intros He. unfold onStatus. rewrite He. by run. Qed.

(** What [onStatus] does on an error. *)
Lemma onStatus_failure sURLs err w :
  Error sURLs = Some err →
  onStatus sURLs w =
    let w1 := addOut w (failureReport sURLs err) in
    if skipClass (ToGoError err) then (w1, Ret tt)
    else (mkWorld (mkSession (Header (session w)) (Some (Header (session w)))
                             (dataFile (session w)))
                  (out w1 ++ [EvSave (Header (session w))]),
          Exited 1).
Proof.
  intros He. unfold onStatus, failureReport, addOut.
  rewrite He.
  run. destruct interactive, (ToGoError err); simpl;
    by rewrite <- ?app_assoc.
Qed.

(** C1.  For every status the monitor receives: without an error, the
    header's [LastCopied] becomes the unit's source URL and the header is
    saved at once (the header on disk is the new header, the save is the
    only call the step makes, and the loop goes on from there); with an
    error, the header in memory, and so its [LastCopied], is the one from
    before, and the header on disk is either untouched or that same
    header. *)
Theorem onStatus_checkpoint (sURLs : mirrorURLs)
    (sel : list (selected mirrorURLs)) (progressReader : option barSend)
    (accntReader : accounter) (w : world) :
  let w' := (onStatus sURLs w).1 in
  match Error sURLs with
  | None =>
      LastCopied (Header (session w')) = URL (SourceContent sURLs)
      ∧ Header (session w')
          = setLastCopied (Header (session w)) (URL (SourceContent sURLs))
      ∧ savedHeader (session w') = Some (Header (session w'))
      ∧ dataFile (session w') = dataFile (session w)
      ∧ out w' = out w ++ [EvSave (Header (session w'))]
      ∧ (onStatus sURLs w).2 = Ret tt
      ∧ statusLoop (Recv sURLs :: sel) progressReader accntReader w
          = statusLoop sel progressReader accntReader w'
  | Some err =>
      Header (session w') = Header (session w)
      ∧ LastCopied (Header (session w')) = LastCopied (Header (session w))
      ∧ (savedHeader (session w') = savedHeader (session w)
         ∨ savedHeader (session w') = Some (Header (session w)))
  end.
Proof.
  destruct (Error sURLs) as [err|] eqn:He; simpl.
  - rewrite (onStatus_failure _ _ _ He). simpl.
    destruct (skipClass (ToGoError err)); simpl; auto.
  - unfold mbind, M_bind, bind.
    rewrite (onStatus_success _ _ He). simpl. by split_and!.
Qed.

(** C2.  For every error status the monitor receives: when the error is
    in the skip class the monitor reports it and goes on with the
    remaining statuses, and [onStatus] returns; otherwise [onStatus] does
    not return: after the report it saves the header and the process
    exits with a non-zero status, the session preserved. *)
Theorem onStatus_error_policy (source : content) (targets : list content)
    (err : probeError) (sel : list (selected mirrorURLs))
    (progressReader : option barSend) (accntReader : accounter) (w : world) :
  let sURLs := mkMirrorURLs source targets (Some err) in
  let w1 := addOut w (failureReport sURLs err) in
  if skipClass (ToGoError err)
  then onStatus sURLs w = (w1, Ret tt)
       ∧ statusLoop (Recv sURLs :: sel) progressReader accntReader w
         = statusLoop sel progressReader accntReader w1
  else ∃ w' code,
       onStatus sURLs w = (w', Exited code)
       ∧ statusLoop (Recv sURLs :: sel) progressReader accntReader w
         = (w', Exited code)
       ∧ code ≠ 0
       ∧ preserved w w'
       ∧ out w' = out w1 ++ [EvSave (Header (session w))].
Proof.
  intros sURLs w1.
  pose proof (onStatus_failure sURLs err w eq_refl) as H. simpl in H.
  fold w1 in H.
  destruct (skipClass (ToGoError err)).
  - split; [done|]. simpl. unfold mbind, M_bind, bind. by rewrite H.
  - eexists _, 1. split; [exact H|].
    split; [simpl; unfold mbind, M_bind, bind; by rewrite H|].
    split; [done|]. by split.
Qed.

(** ** The preparation pipeline *)


(** One turn of the loop, case by case. *)

Lemma prepareLoop_trap sel tb to w :
  prepareLoop (Trapped :: sel) tb to w =
    (mkWorld (dropSession (session w))
             (out w ++ (if interactive then [EvEraseline] else []) ++ [EvDelete]),
     Exited 0).
Proof.
  run. destruct interactive; simpl;
    by rewrite <- ?app_assoc.
Qed.

Lemma prepareLoop_error sURLs err sel tb to w :
  Error sURLs = Some err →
  prepareLoop (Recv sURLs :: sel) tb to w =
    prepareLoop sel tb to
      (addOut w ((if interactive then [EvEraseline] else [])
                 ++ [EvErrorIf (Trace err []) "Unable to prepare URLs for mirroring."])).
Proof.
  intros He. simpl. rewrite He. unfold addOut.
  run. destruct interactive; simpl;
    by rewrite <- ?app_assoc.
Qed.

Lemma prepareLoop_empty sURLs sel tb to w :
  Error sURLs = None → isEmpty sURLs = true →
  prepareLoop (Recv sURLs :: sel) tb to w = prepareLoop sel tb to w.
Proof. intros He Hm. simpl. by rewrite He, Hm. Qed.

Lemma prepareLoop_marshal_fails sURLs err sel tb to w :
  Error sURLs = None → isEmpty sURLs = false → jsonMarshal sURLs = inr err →
  prepareLoop (Recv sURLs :: sel) tb to w =
    (mkWorld (dropSession (session w))
             (out w ++ [EvDelete;
                        EvFatalIf (NewError err) "Unable to marshal URLs into JSON."]),
     Exited 1).
Proof.
  intros He Hm Hj. simpl. rewrite He, Hm, Hj. run.
  by rewrite <- ?app_assoc.
Qed.

Lemma prepareLoop_log sURLs line sel tb to w :
  Error sURLs = None → isEmpty sURLs = false → jsonMarshal sURLs = inl line →
  prepareLoop (Recv sURLs :: sel) tb to w =
    prepareLoop sel (Int64.add tb (Size (SourceContent sURLs))) (Int64.add to 1)
      (mkWorld (appendLog (session w) [line])
               (out w ++ [EvFprintln line]
                  ++ (if interactive then [EvScanBar (URL (SourceContent sURLs))]
                      else []))).
Proof.
  intros He Hm Hj. simpl. rewrite He, Hm, Hj.
  run. destruct interactive; simpl;
    by rewrite <- ?app_assoc, ?app_nil_r.
Qed.

Lemma loggable_error sURLs err : Error sURLs = Some err → loggable sURLs = false.
Proof. intros He. unfold loggable. by rewrite He. Qed.

Lemma loggable_empty sURLs : isEmpty sURLs = true → loggable sURLs = false.
Proof. intros Hm. unfold loggable. rewrite Hm. apply andb_false_r. Qed.

Lemma loggable_unit sURLs :
  Error sURLs = None → isEmpty sURLs = false → loggable sURLs = true.
Proof. intros He Hm. unfold loggable. by rewrite He, Hm. Qed.

(** A loop that returns has met no trap and no marshalling failure; it has
    appended one line per loggable unit, saved nothing, and its
    accumulators hold the [int64] sums over the units it logged. *)
Lemma prepareLoop_returns sel tb to w w' r :
  Int64.wrap tb = tb → Int64.wrap to = to →
  prepareLoop sel tb to w = (w', Ret r) →
  ∃ ch lines tr,
    sel = Recv <$> ch
    ∧ Forall2 (λ u l, jsonMarshal u = inl l) (List.filter loggable ch) lines
    ∧ Header (session w') = Header (session w)
    ∧ savedHeader (session w') = savedHeader (session w)
    ∧ default [] (dataFile (session w')) = default [] (dataFile (session w)) ++ lines
    ∧ out w' = out w ++ tr
    ∧ Forall (λ e, isSave e = false) tr
    ∧ r.1 = Int64.wrap (tb + sumSizes (List.filter loggable ch))
    ∧ r.2 = Int64.wrap (to + Z.of_nat (length (List.filter loggable ch))).
Proof.
  revert tb to w.
  induction sel as [|[sURLs|] sel IH]; intros tb to w Htb Hto Hrun.
  - exists [], [], []. simpl in Hrun. injection Hrun as <- <-. simpl.
    rewrite !app_nil_r, !Z.add_0_r. repeat split; auto.
  - destruct (Error sURLs) as [err|] eqn:He;
      [|destruct (isEmpty sURLs) eqn:Hm;
        [|destruct (jsonMarshal sURLs) as [line|err] eqn:Hj]].
    + rewrite (prepareLoop_error _ _ _ _ _ _ He) in Hrun.
      destruct (IH _ _ _ Htb Hto Hrun)
        as (ch & lines & tr & -> & Hl & Hh & Hs & Hd & Ho & Hsv & Hb & Hn).
      exists (sURLs :: ch), lines,
        (((if interactive then [EvEraseline] else [])
          ++ [EvErrorIf (Trace err []) "Unable to prepare URLs for mirroring."]) ++ tr).
      simpl. rewrite (loggable_error _ _ He).
      repeat split; auto.
      * rewrite Ho. unfold addOut. simpl. by rewrite <- app_assoc.
      * apply Forall_app_2; [|done]. destruct interactive; by repeat constructor.
    + rewrite (prepareLoop_empty _ _ _ _ _ He Hm) in Hrun.
      destruct (IH _ _ _ Htb Hto Hrun)
        as (ch & lines & tr & -> & Hl & Hh & Hs & Hd & Ho & Hsv & Hb & Hn).
      exists (sURLs :: ch), lines, tr. simpl.
      rewrite (loggable_empty _ Hm). repeat split; auto.
    + rewrite (prepareLoop_log _ _ _ _ _ _ He Hm Hj) in Hrun.
      apply IH in Hrun;
        [|unfold Int64.add; apply Int64_wrap_id, Int64_wrap_in_range ..].
      destruct Hrun
        as (ch & lines & tr & -> & Hl & Hh & Hs & Hd & Ho & Hsv & Hb & Hn).
      exists (sURLs :: ch), (line :: lines),
        (([EvFprintln line]
          ++ (if interactive then [EvScanBar (URL (SourceContent sURLs))] else []))
         ++ tr).
      simpl in *.
      rewrite (loggable_unit _ He Hm).
      repeat split; auto.
      * rewrite Hd. by rewrite <- app_assoc.
      * rewrite Ho. by rewrite <- !app_assoc.
      * constructor; [done|]. apply Forall_app_2; [|done].
        destruct interactive; by repeat constructor.
      * rewrite Hb. unfold Int64.add. rewrite Int64_wrap_add_l. simpl.
        f_equal. lia.
      * rewrite Hn. unfold Int64.add. rewrite Int64_wrap_add_l. simpl length.
        f_equal. lia.
    + rewrite (prepareLoop_marshal_fails _ _ _ _ _ _ He Hm Hj) in Hrun.
      discriminate.
  - rewrite prepareLoop_trap in Hrun. discriminate.
Qed.

(** ** The select loops *)

Lemma selectLoop_never {A} (ch : list A) : selectLoop ch None = Recv <$> ch.
Proof. induction ch as [|a ch IH]; simpl; [done|]. by rewrite IH. Qed.

Lemma selectLoop_trapped {A} (ch : list A) (n : nat) :
  (n ≤ length ch)%nat →
  selectLoop ch (Some n) = (Recv <$> take n ch) ++ [Trapped].
Proof.
  revert n. induction ch as [|a ch IH]; intros [|n] Hn; simpl in *;
    try done; try lia.
  rewrite IH; [done|lia].
Qed.

Lemma selectLoop_recv_inv {A} (ch ch' : list A) (trapCh : option nat) :
  selectLoop ch trapCh = Recv <$> ch' → ch' = ch.
Proof.
  revert ch' trapCh.
  induction ch as [|a ch IH]; intros [|a' ch'] [[|n]|]; simpl; try done.
  - intros [= <- H]. f_equal. by apply (IH _ (Some n)).
  - intros [= <- H]. f_equal. by apply (IH _ None).
Qed.

(** ** The status monitor as a loop *)

Lemma statusLoop_recv sURLs sel progressReader accntReader w :
  statusLoop (Recv sURLs :: sel) progressReader accntReader w =
    match onStatus sURLs w with
    | (w', Ret _) => statusLoop sel progressReader accntReader w'
    | (w', Exited c) => (w', Exited c)
    | (w', Panicked) => (w', Panicked)
    end.
Proof. done. Qed.

Lemma statusLoop_trap sel progressReader accntReader w :
  statusLoop (Trapped :: sel) progressReader accntReader w =
    (mkWorld (mkSession (Header (session w)) (Some (Header (session w)))
                        (dataFile (session w)))
             (out w ++ (if interactive then [EvEraseline] else [])
                ++ [EvSave (Header (session w))]),
     Exited 1).
Proof.
  run. destruct interactive; simpl; by rewrite <- ?app_assoc.
Qed.

(** The monitor writes no header field but [LastCopied], and never the
    log. *)
Lemma statusLoop_frame sel progressReader accntReader w :
  let w' := (statusLoop sel progressReader accntReader w).1 in
  TotalBytes (Header (session w')) = TotalBytes (Header (session w))
  ∧ TotalObjects (Header (session w')) = TotalObjects (Header (session w))
  ∧ dataFile (session w') = dataFile (session w).
Proof.
  revert w. induction sel as [|[sURLs|] sel IH]; intros w.
  - run. destruct interactive, progressReader; simpl; auto.
  - rewrite statusLoop_recv.
    destruct (Error sURLs) as [err|] eqn:He.
    + rewrite (onStatus_failure _ _ _ He). simpl.
      destruct (skipClass (ToGoError err)); simpl; [|done].
      apply (IH (addOut w _)).
    + rewrite (onStatus_success _ _ He). simpl.
      specialize (IH (mkWorld
        (mkSession (setLastCopied (Header (session w)) (URL (SourceContent sURLs)))
                   (Some (setLastCopied (Header (session w)) (URL (SourceContent sURLs))))
                   (dataFile (session w)))
        (out w ++ [EvSave (setLastCopied (Header (session w))
                                  (URL (SourceContent sURLs)))]))).
      simpl in IH. exact IH.
  - rewrite statusLoop_trap. simpl. auto.
Qed.

(** A monitor that meets the trap exits with status 1, the session
    preserved. *)
Lemma statusLoop_interrupted sel progressReader accntReader w :
  Trapped ∈ sel →
  ∃ w', statusLoop sel progressReader accntReader w = (w', Exited 1)
        ∧ preserved w w'.
Proof.
  revert w. induction sel as [|[sURLs|] sel IH]; intros w Hin.
  - by apply elem_of_nil in Hin.
  - apply elem_of_cons in Hin as [?|Hin]; [done|].
    rewrite statusLoop_recv.
    destruct (Error sURLs) as [err|] eqn:He.
    + rewrite (onStatus_failure _ _ _ He). simpl.
      destruct (skipClass (ToGoError err)).
      * destruct (IH (addOut w (failureReport sURLs err)) Hin) as (w' & -> & Hp).
        eexists. split; [done|]. exact Hp.
      * eexists. split; [done|]. by split.
    + rewrite (onStatus_success _ _ He). simpl.
      match goal with |- context [statusLoop _ _ _ ?w1] =>
        destruct (IH w1 Hin) as (w' & -> & Hp) end.
      eexists. split; [done|]. exact Hp.
  - rewrite statusLoop_trap. eexists. split; [done|]. by split.
Qed.

(** ** Preparation as a whole *)

Lemma doPrepareMirrorURLs_unfold isForce trapCh w sourceURL targetURLs :
  CommandArgs (Header (session w)) = sourceURL :: targetURLs →
  doPrepareMirrorURLs isForce trapCh w =
    match prepareLoop (selectLoop (prepareMirrorURLs sourceURL targetURLs isForce) trapCh)
                      0 0 (addOut w [EvNewDataWriter]) with
    | (w1, Ret totals) =>
        let h := setTotals (Header (session w1)) totals.1 totals.2 in
        (mkWorld (mkSession h (Some h) (dataFile (session w1)))
                 (out w1 ++ [EvSave h]), Ret tt)
    | (w1, Exited c) => (w1, Exited c)
    | (w1, Panicked) => (w1, Panicked)
    end.
Proof.
  intros Ha. unfold doPrepareMirrorURLs.
  unfold mbind at 1. unfold M_bind, bind, getSession. rewrite Ha.
  unfold mbind at 1. unfold M_bind, bind, sessionNewDataWriter, emit, addOut.
  unfold mbind at 1. unfold M_bind, bind.
  destruct (prepareLoop _ _ _ _) as [w1 [totals|c|]]; [|done..].
  by run.
Qed.

Lemma doPrepareMirrorURLs_no_args isForce trapCh w :
  CommandArgs (Header (session w)) = [] →
  doPrepareMirrorURLs isForce trapCh w = (w, Panicked).
Proof.
  intros Ha. unfold doPrepareMirrorURLs.
  unfold mbind, M_bind, bind, getSession. by rewrite Ha.
Qed.

(** ** The transfer task *)

Lemma cons_app_eq {A} (x : A) (l t u : list A) : l = t ++ u → x :: l = (x :: t) ++ u.
Proof. by intros ->. Qed.

(** Splits a literal list in front of a given literal suffix. *)
Ltac split_suffix :=
  repeat first [ exact (eq_refl : _ = [] ++ _) | apply cons_app_eq ].

(** Every path of the task ends with the release of its slot, then
    [wg.Done()]; the task releases once and leaves the session alone. *)
Lemma doMirror_releases sURLs progressReader accountingReader w :
  ∃ tr0,
    out (doMirror sURLs progressReader accountingReader w).1
      = out w ++ tr0 ++ [EvRelease; EvWgDone mirrorWg]
    ∧ Forall (λ e, isRelease e = false) tr0
    ∧ session (doMirror sURLs progressReader accountingReader w).1 = session w.
Proof.
  doMirror_paths sURLs progressReader;
    (eexists; split; [f_equal; split_suffix|]; split; [|done]);
    by repeat constructor.
Qed.

(** C7.  A task whose [getSource] fails never calls [putTargets]; with the
    progress bar the session set up for the output mode, it returns after
    sending exactly one status.  That status carries an error: the error
    of [getSource], of the same kind, traced with the source URL; and it
    carries the source and the targets of the unit. *)
Theorem doMirror_source_failure (sURLs : mirrorURLs)
    (progressReader : option barSend) (accountingReader : accounter)
    (reader : readCloser) (length : Z) (err : probeError) (w : world) :
  Error sURLs = None →
  getSource (URL (SourceContent sURLs)) = (reader, length, Some err) →
  ∃ tr,
    out (doMirror sURLs progressReader accountingReader w).1 = out w ++ tr
    ∧ Forall (λ e, isPutTargets e = false) tr
    ∧ ((interactive = true → is_Some progressReader) →
        (doMirror sURLs progressReader accountingReader w).2 = Ret tt
        ∧ List.filter isSend tr =
            [EvSend (setError sURLs
                       (Some (Trace err [URL (SourceContent sURLs)])))]
        ∧ ∃ status reported,
            List.filter isSend tr = [EvSend status]
            ∧ Error status = Some reported
            ∧ ToGoError reported = ToGoError err
            ∧ callInfo reported = callInfo err ++ [[URL (SourceContent sURLs)]]
            ∧ SourceContent status = SourceContent sURLs
            ∧ TargetContents status = TargetContents sURLs).
Proof.
  intros He Hg. unfold doMirror. rewrite He.
  destruct globalQuietFlag, globalJSONFlag, progressReader; run;
    rewrite ?Hg; run; rewrite <- ?app_assoc; simpl;
    (eexists; split; [reflexivity|]; split; [by repeat constructor|]);
    intros Hpr; try (by destruct (Hpr eq_refl));
    (split; [done|]; split; [done|]); by eexists _, _.
Qed.

(** With the progress bar the session set up for the output mode, the task
    dereferences no nil pointer: it returns. *)
Lemma doMirror_returns sURLs progressReader accountingReader w :
  (interactive = true → is_Some progressReader) →
  (doMirror sURLs progressReader accountingReader w).2 = Ret tt.
Proof.
  intros Hpr. revert Hpr.
  doMirror_paths sURLs progressReader; intros Hpr;
    try done; by destruct (Hpr eq_refl).
Qed.

(** ** The log scanner *)

Lemma doMirrorFake_run sURLs progressReader w :
  doMirrorFake sURLs progressReader w =
    if negb globalDebugFlag && negb globalJSONFlag then
      match progressReader with
      | Some _ => (addOut w [EvBar (Progress (Size (SourceContent sURLs)))], Ret tt)
      | None => (w, Panicked)
      end
    else (w, Ret tt).
Proof.
  unfold doMirrorFake.
  destruct (negb globalDebugFlag && negb globalJSONFlag), progressReader; by run.
Qed.

Lemma scanLoop_cons line lines isCopiedSt progressReader w :
  scanLoop (line :: lines) isCopiedSt progressReader w =
    let sURLs := (jsonUnmarshal line).1 in
    let r := isCopied isCopiedSt (URL (SourceContent sURLs)) in
    if r.1 then
      match doMirrorFake sURLs progressReader w with
      | (w', Ret _) => scanLoop lines r.2 progressReader w'
      | (w', Exited c) => (w', Exited c)
      | (w', Panicked) => (w', Panicked)
      end
    else scanLoop lines r.2 progressReader
           (addOut w [EvAcquire; EvWgAdd mirrorWg; EvGo sURLs]).
Proof.
  simpl. destruct (isCopied _ _) as [[|] st']; simpl; [done|].
  run. unfold addOut. by rewrite <- !app_assoc.
Qed.

(** The scanner performs a prefix of the plan, the whole plan when it
    returns, and leaves the session alone. *)
Lemma scanLoop_run lines isCopiedSt progressReader w :
  ∃ tr,
    out (scanLoop lines isCopiedSt progressReader w).1 = out w ++ tr
    ∧ session (scanLoop lines isCopiedSt progressReader w).1 = session w
    ∧ tr `prefix_of` (resumePlan lines isCopiedSt ≫= planEvents)
    ∧ ((scanLoop lines isCopiedSt progressReader w).2 = Ret tt →
       tr = resumePlan lines isCopiedSt ≫= planEvents).
Proof.
  revert isCopiedSt w.
  induction lines as [|line lines IH]; intros st w.
  - exists []. simpl. by rewrite app_nil_r.
  - rewrite scanLoop_cons. simpl.
    destruct (isCopied st _) as [[|] st'] eqn:Hc; simpl.
    + rewrite doMirrorFake_run. unfold planEvents at 1 3. simpl.
      destruct (negb globalDebugFlag && negb globalJSONFlag);
        [destruct progressReader|].
      * destruct (IH st' (addOut w [EvBar (Progress (Size (SourceContent (jsonUnmarshal line).1)))]))
          as (tr & Ho & Hs & Hp & Hr).
        exists ([EvBar (Progress (Size (SourceContent (jsonUnmarshal line).1)))] ++ tr).
        split; [rewrite Ho; unfold addOut; simpl; by rewrite <- app_assoc|].
        split; [done|].
        split; [destruct Hp as [k Hk]; exists k; simpl; repeat f_equal; exact Hk|].
        intros Hret. simpl. repeat f_equal. exact (Hr Hret).
      * exists []. simpl. rewrite app_nil_r.
        split; [done|]. split; [done|]. split; [apply prefix_nil|done].
      * destruct (IH st' w) as (tr & Ho & Hs & Hp & Hr).
        exists tr. by simpl.
    + destruct (IH st' (addOut w [EvAcquire; EvWgAdd mirrorWg; EvGo (jsonUnmarshal line).1]))
        as (tr & Ho & Hs & Hp & Hr).
      exists ([EvAcquire; EvWgAdd mirrorWg; EvGo (jsonUnmarshal line).1] ++ tr).
      split; [rewrite Ho; unfold addOut; simpl; by rewrite <- app_assoc|].
      split; [done|].
      split; [destruct Hp as [k Hk]; exists k; simpl; repeat f_equal; exact Hk|].
      intros Hret. simpl. repeat f_equal. exact (Hr Hret).
Qed.

Lemma filter_prefix {A} (f : A → bool) (l1 l2 : list A) :
  l1 `prefix_of` l2 → List.filter f l1 `prefix_of` List.filter f l2.
Proof. intros [k ->]. rewrite List.filter_app. by eexists. Qed.

Lemma Forall_prefix {A} (P : A → Prop) (l1 l2 : list A) :
  l1 `prefix_of` l2 → Forall P l2 → Forall P l1.
Proof. intros [k ->] H. by apply Forall_app in H as [? _]. Qed.

Lemma plan_bind_cons (p : mirrorURLs * bool) plan :
  (p :: plan) ≫= planEvents = planEvents p ++ (plan ≫= planEvents).
Proof. done. Qed.

Lemma planEvents_copied sURLs :
  planEvents (sURLs, true) = [] ∨
  planEvents (sURLs, true) = [EvBar (Progress (Size (SourceContent sURLs)))].
Proof.
  unfold planEvents. simpl.
  destruct (negb globalDebugFlag && negb globalJSONFlag); auto.
Qed.

Lemma planEvents_go plan :
  List.filter isGo (plan ≫= planEvents) = EvGo <$> pendingUnits plan.
Proof.
  unfold pendingUnits.
  induction plan as [|[sURLs [|]] plan IH]; [done| |];
    rewrite plan_bind_cons, List.filter_app, IH.
  - by destruct (planEvents_copied sURLs) as [-> | ->].
  - done.
Qed.

Lemma planEvents_go_pending plan sURLs :
  EvGo sURLs ∈ plan ≫= planEvents → (sURLs, false) ∈ plan.
Proof.
  induction plan as [|[u [|]] plan IH].
  - by intros ?%elem_of_nil.
  - rewrite plan_bind_cons. intros [H|H]%elem_of_app.
    + destruct (planEvents_copied u) as [Hu | Hu]; rewrite Hu in H.
      * by apply elem_of_nil in H.
      * apply list_elem_of_singleton in H. discriminate.
    + right. by apply IH.
  - rewrite plan_bind_cons. intros [H|H]%elem_of_app.
    + unfold planEvents in H. simpl in H. rewrite !elem_of_cons in H.
      destruct H as [?|[?|[[= <-]|H]]]; try done; [left|by apply elem_of_nil in H].
    + right. by apply IH.
Qed.

Lemma planEvents_no_put plan :
  Forall (λ e, isPutTargets e = false) (plan ≫= planEvents).
Proof.
  induction plan as [|[u [|]] plan IH]; [by constructor| |];
    rewrite plan_bind_cons; (apply Forall_app_2; [|done]).
  - destruct (planEvents_copied u) as [-> | ->]; by repeat constructor.
  - by repeat constructor.
Qed.

(** In the plan's events every [go doMirror] stands right after its own
    [mirrorQueue <- true] and [mirrorWg.Add(1)]. *)
Lemma planEvents_acquire plan (i : nat) sURLs :
  (plan ≫= planEvents) !! i = Some (EvGo sURLs) →
  ∃ j : nat, i = S (S j)
    ∧ (plan ≫= planEvents) !! j = Some EvAcquire
    ∧ (plan ≫= planEvents) !! S j = Some (EvWgAdd mirrorWg).
Proof.
  revert i. induction plan as [|p plan IH]; intros i; [done|].
  rewrite plan_bind_cons.
  intros H. apply lookup_app_Some in H as [H|[Hlen H]].
  - destruct p as [u [|]].
    + destruct (planEvents_copied u) as [Hu | Hu]; rewrite Hu in H;
        [|destruct i as [|[|]]]; done.
    + destruct i as [|[|[|i]]]; try done. by exists 0%nat.
  - apply IH in H as (j & Hi & Ha & Hw).
    exists (length (planEvents p) + j)%nat.
    split; [lia|].
    split.
    + rewrite lookup_app_r by lia. rewrite <- Ha. f_equal. lia.
    + rewrite lookup_app_r by lia. rewrite <- Hw. f_equal. lia.
Qed.

(** C3.  The scanner replays or dispatches each unit of the log by the
    answer of [isCopied] at its turn.  At a unit for which [isCopied]
    answers true the turn of the loop is [doMirrorFake] and nothing else;
    at any other unit it is a slot, a wait-group ticket and a task.  What
    the scanner does is thus a prefix of the plan's events, and the whole
    of them when it returns; the tasks it starts are, in order, pending
    units of the plan; a task it starts belongs to a unit for which
    [isCopied] answered false; and the scanner itself never calls
    [putTargets]. *)
Theorem scanLoop_no_double_transfer (lines : list string)
    (isCopiedSt : copiedState) (progressReader : option barSend) (w : world) :
  match lines with
  | [] => scanLoop lines isCopiedSt progressReader w = (w, Ret tt)
  | line :: lines' =>
      let sURLs := (jsonUnmarshal line).1 in
      let r := isCopied isCopiedSt (URL (SourceContent sURLs)) in
      if r.1
      then scanLoop lines isCopiedSt progressReader w
           = (doMirrorFake sURLs progressReader;;
              scanLoop lines' r.2 progressReader) w
      else scanLoop lines isCopiedSt progressReader w
           = scanLoop lines' r.2 progressReader
               (addOut w [EvAcquire; EvWgAdd mirrorWg; EvGo sURLs])
  end
  ∧ ∃ tr,
    out (scanLoop lines isCopiedSt progressReader w).1 = out w ++ tr
    ∧ tr `prefix_of` (resumePlan lines isCopiedSt ≫= planEvents)
    ∧ ((scanLoop lines isCopiedSt progressReader w).2 = Ret tt →
       tr = resumePlan lines isCopiedSt ≫= planEvents)
    ∧ List.filter isGo tr
        `prefix_of` (EvGo <$> pendingUnits (resumePlan lines isCopiedSt))
    ∧ (∀ sURLs, EvGo sURLs ∈ tr → (sURLs, false) ∈ resumePlan lines isCopiedSt)
    ∧ Forall (λ e, isPutTargets e = false) tr.
Proof.
  split.
  { destruct lines as [|line lines']; [done|].
    rewrite scanLoop_cons. simpl.
    by destruct (isCopied isCopiedSt _) as [[|] st']. }
  destruct (scanLoop_run lines isCopiedSt progressReader w)
    as (tr & Ho & _ & Hp & Hr).
  exists tr. split_and!; try done.
  - rewrite <- planEvents_go. by apply filter_prefix.
  - intros sURLs Hin. apply planEvents_go_pending.
    destruct Hp as [k ->]. apply elem_of_app. by left.
  - eapply Forall_prefix; [done|]. apply planEvents_no_put.
Qed.

(** ** The bounded pool *)

Lemma pendingReleases_app ts1 ts2 :
  pendingReleases (ts1 ++ ts2) = (pendingReleases ts1 + pendingReleases ts2)%nat.
Proof.
  unfold pendingReleases. by rewrite concat_app, List.filter_app, length_app.
Qed.

Lemma pendingReleases_cons t ts :
  pendingReleases (t :: ts)
  = (length (List.filter isRelease t) + pendingReleases ts)%nat.
Proof.
  unfold pendingReleases. simpl. by rewrite List.filter_app, length_app.
Qed.

Lemma holders_le_pending ts : (holders ts ≤ pendingReleases ts)%nat.
Proof.
  induction ts as [|t ts IH]; [done|].
  rewrite pendingReleases_cons. unfold holders in *. simpl.
  destruct (existsb isRelease t) eqn:Ht; simpl; [|lia].
  apply existsb_exists in Ht as (e & Hin & He).
  assert (0 < length (List.filter isRelease t))%nat; [|lia].
  assert (In e (List.filter isRelease t)) as Hf by (apply filter_In; by split).
  destruct (List.filter isRelease t); [done|simpl; lia].
Qed.

Lemma alternates_prefix holding l1 l2 :
  alternates holding (l1 ++ l2) = true → alternates holding l1 = true.
Proof.
  revert holding. induction l1 as [|e l1 IH]; intros holding; [done|].
  destruct e; simpl; try apply IH.
  - intros [? ?]%andb_true_iff. apply andb_true_iff. split; [done|]. by eapply IH.
  - intros [? ?]%andb_true_iff. apply andb_true_iff. split; [done|]. by eapply IH.
Qed.

Lemma alternates_plan plan : alternates false (plan ≫= planEvents) = true.
Proof.
  induction plan as [|[u [|]] plan IH]; [done| |]; rewrite plan_bind_cons.
  - by destruct (planEvents_copied u) as [-> | ->].
  - done.
Qed.

(** Every step of the pool keeps the count of [mirrorQueue] equal to the
    slots held, and within the capacity. *)
Lemma poolStep_inv cap task p p' :
  (∀ sURLs, length (List.filter isRelease (task sURLs)) = 1%nat) →
  poolInv cap p → poolStep cap task p p' → poolInv cap p'.
Proof.
  intros Htask (holding & Halt & Hq & Hcap) Hstep.
  destruct Hstep as [n rest ts Hn|n u rest ts|n e rest ts Ha Hg
                    |n sc ts1 rest ts2|n sc ts1 e rest ts2 He]; simpl in *.
  - apply andb_true_iff in Halt as [Hh Halt]. destruct holding; [done|].
    exists true. simpl in *. split; [done|]. lia.
  - apply andb_true_iff in Halt as [Hh Halt]. destruct holding; [|done].
    exists false. simpl. split; [done|].
    rewrite pendingReleases_app, pendingReleases_cons, Htask.
    unfold pendingReleases at 2. simpl. lia.
  - exists holding. simpl. split; [|done]. by destruct e.
  - exists holding. simpl. split; [done|].
    rewrite pendingReleases_app, pendingReleases_cons in *. simpl in *. lia.
  - exists holding. simpl. split; [done|].
    rewrite pendingReleases_app, pendingReleases_cons in *. simpl in *.
    rewrite He in Hq. lia.
Qed.

Lemma pool_reachable_inv cap task p p' :
  (∀ sURLs, length (List.filter isRelease (task sURLs)) = 1%nat) →
  poolInv cap p → rtc (poolStep cap task) p p' → poolInv cap p'.
Proof.
  intros Htask Hinv Hsteps. induction Hsteps as [|p p' p'' Hstep _ IH]; [done|].
  apply IH. by eapply poolStep_inv.
Qed.

Lemma doMirror_one_release sURLs progressReader accountingReader s :
  length (List.filter isRelease
            (callsOf (doMirror sURLs progressReader accountingReader) s)) = 1%nat.
Proof.
  unfold callsOf.
  destruct (doMirror_releases sURLs progressReader accountingReader (mkWorld s []))
    as (tr0 & -> & Hf & _).
  simpl. rewrite List.filter_app. simpl.
  replace (List.filter isRelease tr0) with (@nil event); [done|].
  clear -Hf. induction Hf as [|e tr0 He _ IH]; [done|]. simpl. by rewrite He.
Qed.

Lemma scanLoop_alternates lines isCopiedSt progressReader s :
  alternates false (callsOf (scanLoop lines isCopiedSt progressReader) s) = true.
Proof.
  unfold callsOf.
  destruct (scanLoop_run lines isCopiedSt progressReader (mkWorld s []))
    as (tr & -> & _ & [k Hk] & _).
  simpl. apply (alternates_prefix _ _ k). rewrite <- Hk. apply alternates_plan.
Qed.

(** C9.  The queue of slots has capacity [max(NumCPU - 1, 1)], which is at
    least one; in what the scanner does, every start of a task stands right
    after the acquisition of a slot and the wait-group ticket of that task;
    every run of a task, whatever its unit, collaborators and outcome,
    ends with the release of the slot followed by [wg.Done()], releases
    nowhere else, and does not exit the process; and in every interleaving
    of the scanner with the tasks it starts, [mirrorQueue] never holds more
    values than its capacity, nor do more tasks than that hold a slot. *)
Theorem pool_discipline (NumCPU : Z) (lines : list string)
    (isCopiedSt : copiedState) (progressReader : option barSend)
    (sURLs : mirrorURLs) (accountingReader : accounter) (w : world) :
  mirrorQueueCap NumCPU = Z.max (NumCPU - 1) 1
  ∧ 1 ≤ mirrorQueueCap NumCPU
  ∧ (∃ tr,
       out (scanLoop lines isCopiedSt progressReader w).1 = out w ++ tr
       ∧ ∀ (i : nat) u, tr !! i = Some (EvGo u) →
           ∃ j : nat, i = S (S j) ∧ tr !! j = Some EvAcquire
                      ∧ tr !! S j = Some (EvWgAdd mirrorWg))
  ∧ (∃ tr0,
       out (doMirror sURLs progressReader accountingReader w).1
         = out w ++ tr0 ++ [EvRelease; EvWgDone mirrorWg]
       ∧ Forall (λ e, isRelease e = false) tr0
       ∧ ∀ code, (doMirror sURLs progressReader accountingReader w).2 ≠ Exited code)
  ∧ (∀ p,
       rtc (poolStep (Z.to_nat (mirrorQueueCap NumCPU))
                     (λ u, callsOf (doMirror u progressReader accountingReader)
                                   (session w)))
           (mkPool 0 (callsOf (scanLoop lines isCopiedSt progressReader) (session w)) [])
           p →
       (queued p ≤ Z.to_nat (mirrorQueueCap NumCPU))%nat
       ∧ (holders (tasksTodo p) ≤ Z.to_nat (mirrorQueueCap NumCPU))%nat).
Proof.
  split; [done|]. split; [unfold mirrorQueueCap; lia|].
  split; [|split]; [| |
    intros p Hsteps;
    eapply pool_reachable_inv in Hsteps as (holding & _ & Hq & Hcap);
      [|intros u; apply doMirror_one_release
       |exists false; split; [apply scanLoop_alternates|simpl; split; [done|lia]]];
    split; [done|];
    pose proof (holders_le_pending (tasksTodo p)); lia].
  - destruct (scanLoop_run lines isCopiedSt progressReader w)
      as (tr & Ho & _ & Hp & _).
    exists tr. split; [done|]. intros i u Hi.
    destruct Hp as [k Hk].
    assert ((resumePlan lines isCopiedSt ≫= planEvents) !! i = Some (EvGo u)) as HL.
    { rewrite Hk. by apply lookup_app_l_Some. }
    apply planEvents_acquire in HL as (j & -> & Ha & Hw).
    exists j. split; [done|].
    apply lookup_lt_Some in Hi.
    rewrite Hk in Ha, Hw.
    rewrite lookup_app_l in Ha by lia. rewrite lookup_app_l in Hw by lia.
    done.
  - destruct (doMirror_releases sURLs progressReader accountingReader w)
      as (tr0 & Ho & Hf & _).
    exists tr0. split; [done|]. split; [done|].
    intros code. clear Ho Hf. revert code.
    doMirror_paths sURLs progressReader; done.
Qed.

(** ** Totals, interrupts and the resume gate *)

(** C6.  When preparation returns, the command has a source argument and,
    for the units of the enumeration that carry no error and are not
    empty: the log has gained their lines, in order; [TotalBytes] is the
    [int64] sum of their sizes and [TotalObjects] their [int64] count, each
    the exact number whenever that fits [int64]; the header on disk is the
    header in memory; exactly one save was made, as the last step; and no
    later step of the status monitor changes either total. *)
Theorem prepare_totals (isForce : bool) (trapCh : option nat) (w w' : world) :
  doPrepareMirrorURLs isForce trapCh w = (w', Ret tt) →
  ∃ sourceURL targetURLs lines tr,
    CommandArgs (Header (session w)) = sourceURL :: targetURLs
    ∧ let units :=
        List.filter loggable (prepareMirrorURLs sourceURL targetURLs isForce) in
      Forall2 (λ u l, jsonMarshal u = inl l) units lines
      ∧ default [] (dataFile (session w'))
          = default [] (dataFile (session w)) ++ lines
      ∧ TotalBytes (Header (session w')) = Int64.wrap (sumSizes units)
      ∧ TotalObjects (Header (session w')) = Int64.wrap (Z.of_nat (length units))
      ∧ (Int64.in_range (sumSizes units) →
         TotalBytes (Header (session w')) = sumSizes units)
      ∧ (Int64.in_range (Z.of_nat (length units)) →
         TotalObjects (Header (session w')) = Z.of_nat (length units))
      ∧ savedHeader (session w') = Some (Header (session w'))
      ∧ out w' = out w ++ tr ++ [EvSave (Header (session w'))]
      ∧ Forall (λ e, isSave e = false) tr
      ∧ ∀ sel progressReader accntReader,
          let w'' := (statusLoop sel progressReader accntReader w').1 in
          TotalBytes (Header (session w'')) = TotalBytes (Header (session w'))
          ∧ TotalObjects (Header (session w'')) = TotalObjects (Header (session w')).
Proof.
  intros Hrun.
  destruct (CommandArgs (Header (session w))) as [|sourceURL targetURLs] eqn:Ha.
  { by rewrite (doPrepareMirrorURLs_no_args _ _ _ Ha) in Hrun. }
  rewrite (doPrepareMirrorURLs_unfold _ _ _ _ _ Ha) in Hrun.
  destruct (prepareLoop _ _ _ _) as [w1 [totals|c|]] eqn:Hloop; [|done..].
  injection Hrun as <-.
  apply prepareLoop_returns in Hloop; [|done..].
  destruct Hloop as (ch & lines & tr & Hsel & Hl & Hh & Hs & Hd & Ho & Hsv & Hb & Hn).
  apply selectLoop_recv_inv in Hsel as ->.
  rewrite Z.add_0_l in Hb, Hn.
  exists sourceURL, targetURLs, lines, ([EvNewDataWriter] ++ tr).
  split; [done|]. simpl.
  split_and!; try done.
  - intros Hr. by rewrite Hb, Int64_wrap_id.
  - intros Hr. by rewrite Hn, Int64_wrap_id.
  - rewrite Ho, Hh, Hb, Hn. simpl. by rewrite <- !app_assoc.
  - constructor; [done|exact Hsv].
  - intros sel progressReader accntReader.
    match goal with |- context [statusLoop _ _ _ ?w0] =>
      destruct (statusLoop_frame sel progressReader accntReader w0)
        as (Htb & Hto & _) end.
    by split.
Qed.

(** Preparation returns when no trap is taken, the command has a source
    argument and every loggable unit marshals. *)
Lemma prepare_completes isForce w sourceURL targetURLs :
  CommandArgs (Header (session w)) = sourceURL :: targetURLs →
  Forall (λ u, loggable u = true → ∃ l, jsonMarshal u = inl l)
         (prepareMirrorURLs sourceURL targetURLs isForce) →
  ∃ w', doPrepareMirrorURLs isForce None w = (w', Ret tt).
Proof.
  intros Ha Hm. rewrite (doPrepareMirrorURLs_unfold _ _ _ _ _ Ha).
  rewrite selectLoop_never.
  assert (∀ ch tb to w0,
    Forall (λ u, loggable u = true → ∃ l, jsonMarshal u = inl l) ch →
    ∃ w1 r, prepareLoop (Recv <$> ch) tb to w0 = (w1, Ret r)) as Hloop.
  { clear. induction ch as [|u ch IH]; intros tb to w0 Hall.
    - by eexists _, _.
    - apply Forall_cons in Hall as [Hu Hall]. rewrite fmap_cons.
      destruct (Error u) as [err|] eqn:He.
      { rewrite (prepareLoop_error _ _ _ _ _ _ He). by apply IH. }
      destruct (isEmpty u) eqn:Hempty.
      { rewrite (prepareLoop_empty _ _ _ _ _ He Hempty). by apply IH. }
      destruct (Hu (loggable_unit _ He Hempty)) as [l Hl].
      rewrite (prepareLoop_log _ _ _ _ _ _ He Hempty Hl). by apply IH. }
  destruct (Hloop _ 0 0 (addOut w [EvNewDataWriter]) Hm) as (w1 & r & ->).
  by eexists.
Qed.

(** A preparation loop that reaches the trap drops the session and exits
    with status 0. *)
Lemma prepareLoop_interrupted ch sel tb to w :
  Forall (λ u, loggable u = true → ∃ l, jsonMarshal u = inl l) ch →
  ∃ w', prepareLoop ((Recv <$> ch) ++ Trapped :: sel) tb to w = (w', Exited 0)
        ∧ discarded w'.
Proof.
  revert tb to w. induction ch as [|u ch IH]; intros tb to w Hall.
  - simpl app. rewrite prepareLoop_trap. eexists. split; [done|]. by split.
  - apply Forall_cons in Hall as [Hu Hall]. rewrite fmap_cons, <- app_comm_cons.
    destruct (Error u) as [err|] eqn:He.
    { rewrite (prepareLoop_error _ _ _ _ _ _ He). by apply IH. }
    destruct (isEmpty u) eqn:Hempty.
    { rewrite (prepareLoop_empty _ _ _ _ _ He Hempty). by apply IH. }
    destruct (Hu (loggable_unit _ He Hempty)) as [l Hl].
    rewrite (prepareLoop_log _ _ _ _ _ _ He Hempty Hl). by apply IH.
Qed.

(** C4, as the code has it.  A run that takes the trap during execution
    exits with a non-zero status, the session preserved: the header on
    disk is the header in memory and the log is untouched.  A run that
    takes the trap during preparation, after [n] units that marshal,
    drops the session and exits with status 0. *)
Theorem interrupt_exit_status (n : nat) :
  (∀ statusCh progressReader accntReader w,
     (n ≤ length statusCh)%nat →
     ∃ w' code,
       statusLoop (selectLoop statusCh (Some n)) progressReader accntReader w
         = (w', Exited code)
       ∧ code ≠ 0 ∧ preserved w w')
  ∧ (∀ isForce w sourceURL targetURLs,
       CommandArgs (Header (session w)) = sourceURL :: targetURLs →
       (n ≤ length (prepareMirrorURLs sourceURL targetURLs isForce))%nat →
       Forall (λ u, loggable u = true → ∃ l, jsonMarshal u = inl l)
              (take n (prepareMirrorURLs sourceURL targetURLs isForce)) →
       ∃ w', doPrepareMirrorURLs isForce (Some n) w = (w', Exited 0)
             ∧ discarded w').
Proof.
  split.
  - intros statusCh progressReader accntReader w Hn.
    rewrite (selectLoop_trapped _ _ Hn).
    destruct (statusLoop_interrupted
                ((Recv <$> take n statusCh) ++ [Trapped])
                progressReader accntReader w) as (w' & Hrun & Hp).
    { apply elem_of_app. right. by apply list_elem_of_singleton. }
    by exists w', 1.
  - intros isForce w sourceURL targetURLs Ha Hn Hm.
    rewrite (doPrepareMirrorURLs_unfold _ _ _ _ _ Ha).
    rewrite (selectLoop_trapped _ _ Hn).
    destruct (prepareLoop_interrupted _ [] 0 0 (addOut w [EvNewDataWriter]) Hm)
      as (w' & -> & Hd).
    by exists w'.
Qed.

(** C8.  The prologue of [doMirrorSession] runs the preparation exactly
    when [HasData] is false.  On a session with data it does nothing at
    all, so that the readers set up next take the header's totals, the log
    (through its scanner) and [LastCopied] as they were persisted; on a
    session without data it is [doPrepareMirrorURLs] with the session's
    force flag, which always leaves a mark (it opens the data writer, or
    panics for want of a source argument). *)
Theorem prepare_iff_no_data (trapCh : option nat) (w : world) :
  (if HasData (session w)
   then doMirrorSession_prepare trapCh w = (w, Ret tt)
        ∧ (doMirrorSession_prepare trapCh ;; doMirrorSession_readers) w
          = (w, Ret (newAccounter (TotalBytes (Header (session w))),
                     (if interactive
                      then Some (newProgressBar (TotalBytes (Header (session w))))
                      else None),
                     NewScanner (default [] (dataFile (session w))),
                     isCopiedFactory (LastCopied (Header (session w)))))
   else doMirrorSession_prepare trapCh w
        = doPrepareMirrorURLs
            (default false (CommandBoolFlags (Header (session w)) !! "force"))
            trapCh w
        ∧ doMirrorSession_prepare trapCh w ≠ (w, Ret tt)).
Proof.
  unfold doMirrorSession_prepare, doMirrorSession_readers.
  destruct (HasData (session w)) eqn:Hd.
  - run. by rewrite Hd.
  - assert (Heq : (s ← getSession;
              when (negb (HasData s))
                (doPrepareMirrorURLs
                  (default false (CommandBoolFlags (Header s) !! "force")) trapCh)) w
            = doPrepareMirrorURLs
                (default false (CommandBoolFlags (Header (session w)) !! "force"))
                trapCh w).
    { unfold mbind, M_bind, bind, getSession. by rewrite Hd. }
    split; [exact Heq|]. rewrite Heq.
    destruct (CommandArgs (Header (session w))) as [|sourceURL targetURLs] eqn:Ha.
    + by rewrite (doPrepareMirrorURLs_no_args _ _ _ Ha).
    + rewrite (doPrepareMirrorURLs_unfold _ _ _ _ _ Ha).
      destruct (prepareLoop _ _ _ _) as [w1 [totals|c|]] eqn:Hloop; [|done..].
      intros [= Hw]. 
      apply (f_equal out) in Hw. simpl in Hw.
      apply prepareLoop_returns in Hloop as (_ & _ & tr & _ & _ & _ & _ & _ & Ho & _);
        [|done..].
      rewrite Ho in Hw. simpl in Hw. rewrite <- !app_assoc in Hw.
      apply (f_equal length) in Hw. rewrite !length_app in Hw. simpl in Hw. lia.
Qed.


(** ** More on the transfer task *)

(** X1.  Run with the progress bar of the session, a task returns in every
    output mode and sends exactly one status.  The status carries the
    source and the targets of the task's unit, and it carries no error
    exactly when the unit had none and both [getSource] and [putTargets]
    succeeded. *)
Theorem doMirror_one_status (sURLs : mirrorURLs) (total : Z)
    (accountingReader : accounter) (w : world) :
  let url := URL (SourceContent sURLs) in
  let r := doMirror sURLs (sessionProgressReader total) accountingReader w in
  ∃ tr status,
    out r.1 = out w ++ tr
    ∧ r.2 = Ret tt
    ∧ List.filter isSend tr = [EvSend status]
    ∧ SourceContent status = SourceContent sURLs
    ∧ TargetContents status = TargetContents sURLs
    ∧ (Error status = None ↔
         Error sURLs = None
         ∧ (getSource url).2 = None
         ∧ putTargets (URL <$> TargetContents sURLs) (getSource url).1.2
                      (taskReader (getSource url).1.1) = None).
Proof.
  unfold taskReader, sessionProgressReader. simpl.
  destruct (Error sURLs) as [err0|] eqn:He; unfold doMirror; rewrite He;
    [|destruct (getSource (URL (SourceContent sURLs)))
        as [[reader length] [err|]] eqn:Hg];
    destruct globalQuietFlag, globalJSONFlag; run; rewrite ?Hg; run;
    try match goal with
        | |- context [putTargets ?a ?b ?c] =>
            destruct (putTargets a b c) as [?|] eqn:Hp; run
        end;
    rewrite <- ?app_assoc; simpl;
    (eexists _, _; split; [reflexivity|]; split; [done|];
     split; [reflexivity|]; split; [done|]; split; [done|]);
    simpl; split; try done; intros (? & ? & ?); done.
Qed.

(** X2.  Run with the progress bar of the session, a task calls
    [getSource] only for a unit without an error and [putTargets] only
    after [getSource] succeeded: then once, with the target URLs in order,
    the length [getSource] returned and the stream of the output mode, and
    that stream is closed once, after the status is sent and before the
    slot is released.  On every other path nothing is written and nothing
    is closed. *)
Theorem doMirror_write_phase (sURLs : mirrorURLs) (total : Z)
    (accountingReader : accounter) (w : world) :
  let url := URL (SourceContent sURLs) in
  let r := doMirror sURLs (sessionProgressReader total) accountingReader w in
  ∃ tr,
    out r.1 = out w ++ tr
    ∧ match Error sURLs, (getSource url).2 with
      | None, None =>
          let stream := taskReader (getSource url).1.1 in
          List.filter isGetSource tr = [EvGetSource url]
          ∧ List.filter isPutTargets tr
              = [EvPutTargets (URL <$> TargetContents sURLs)
                              (getSource url).1.2 stream]
          ∧ List.filter isReaderClose tr = [EvReaderClose stream]
          ∧ ∃ tr0 status,
              tr = tr0 ++ [EvSend status; EvReaderClose stream;
                           EvRelease; EvWgDone mirrorWg]
      | None, Some _ =>
          List.filter isGetSource tr = [EvGetSource url]
          ∧ List.filter isPutTargets tr = []
          ∧ List.filter isReaderClose tr = []
      | Some _, _ =>
          List.filter isGetSource tr = []
          ∧ List.filter isPutTargets tr = []
          ∧ List.filter isReaderClose tr = []
      end.
Proof.
  unfold taskReader, sessionProgressReader. simpl.
  destruct (Error sURLs) as [err0|] eqn:He; unfold doMirror; rewrite He;
    [|destruct (getSource (URL (SourceContent sURLs)))
        as [[reader length] [err|]] eqn:Hg];
    destruct globalQuietFlag, globalJSONFlag; run; rewrite ?Hg; run;
    try match goal with
        | |- context [putTargets ?a ?b ?c] =>
            destruct (putTargets a b c) as [?|] eqn:Hp; run
        end;
    rewrite <- ?app_assoc; simpl;
    (eexists; split; [reflexivity|]); simpl; split_and?; try done;
    eexists _, _; split_suffix.
Qed.


(** ** More on preparation *)

Lemma selectLoop_late {A} (ch : list A) (n : nat) :
  (length ch < n)%nat → selectLoop ch (Some n) = Recv <$> ch.
Proof.
  revert n. induction ch as [|a ch IH]; intros [|n] Hn; simpl in *;
    try done; try lia.
  rewrite IH; [done|lia].
Qed.

Lemma selectLoop_received {A} (ch : list A) (trapCh : option nat) (a : A) :
  Recv a ∈ selectLoop ch trapCh → a ∈ ch.
Proof.
  revert trapCh. induction ch as [|x ch IH]; intros [[|n]|]; simpl; intros Hin;
    try (by apply elem_of_nil in Hin);
    try (apply list_elem_of_singleton in Hin; discriminate);
    (apply elem_of_cons in Hin as [[= ->]|Hin]; [left|right; by eapply IH]).
Qed.

Lemma selectLoop_trap_taken {A} (ch : list A) (trapCh : option nat) :
  Trapped ∈ selectLoop ch trapCh →
  ∃ n, trapCh = Some n ∧ (n ≤ length ch)%nat.
Proof.
  destruct trapCh as [n|];
    [|rewrite selectLoop_never; by intros (x & Hx & _)%list_elem_of_fmap].
  intros Hin. exists n. split; [done|].
  destruct (decide (n ≤ length ch)%nat); [done|].
  rewrite selectLoop_late in Hin by lia.
  by apply list_elem_of_fmap in Hin as (x & Hx & _).
Qed.

(** The loop of preparation never panics, and it exits only with the
    session dropped: with status 0 at the trap, with status 1 at a unit
    that does not marshal. *)
Lemma prepareLoop_exits sel tb to w :
  match (prepareLoop sel tb to w).2 with
  | Ret _ => True
  | Exited code =>
      discarded (prepareLoop sel tb to w).1
      ∧ ((code = 0 ∧ Trapped ∈ sel)
         ∨ (code = 1 ∧ ∃ sURLs err,
              Recv sURLs ∈ sel ∧ loggable sURLs = true
              ∧ jsonMarshal sURLs = inr err))
  | Panicked => False
  end.
Proof.
  revert tb to w. induction sel as [|[sURLs|] sel IH]; intros tb to w.
  - done.
  - assert (∀ tb' to' w',
      match (prepareLoop sel tb' to' w').2 with
      | Ret _ => True
      | Exited code =>
          discarded (prepareLoop sel tb' to' w').1
          ∧ ((code = 0 ∧ Trapped ∈ Recv sURLs :: sel)
             ∨ (code = 1 ∧ ∃ u err,
                  Recv u ∈ Recv sURLs :: sel ∧ loggable u = true
                  ∧ jsonMarshal u = inr err))
      | Panicked => False
      end) as IH'.
    { intros tb' to' w'. specialize (IH tb' to' w').
      destruct (prepareLoop sel tb' to' w').2; [done| |done].
      destruct IH as [Hd [[-> Hin]|[-> (u & err & Hin & Hl & Hm)]]];
        (split; [done|]); [left|right]; [split; [done|by right]|].
      split; [done|]. exists u, err. split; [by right|done]. }
    destruct (Error sURLs) as [err|] eqn:He;
      [|destruct (isEmpty sURLs) eqn:Hm;
        [|destruct (jsonMarshal sURLs) as [line|err] eqn:Hj]].
    + rewrite (prepareLoop_error _ _ _ _ _ _ He). apply IH'.
    + rewrite (prepareLoop_empty _ _ _ _ _ He Hm). apply IH'.
    + rewrite (prepareLoop_log _ _ _ _ _ _ He Hm Hj). apply IH'.
    + rewrite (prepareLoop_marshal_fails _ _ _ _ _ _ He Hm Hj). simpl.
      split; [done|]. right. split; [done|]. exists sURLs, err.
      split; [by left|]. split; [by apply loggable_unit|done].
  - rewrite prepareLoop_trap. simpl. split; [done|]. left. split; [done|by left].
Qed.

(** X3.  Preparation is all or nothing.  Whatever the enumeration and the
    moment of an interrupt: when it returns, the header on disk is the
    header in memory (with the totals); when it exits, neither header nor
    log is left on disk, the status is 0 only if the trap was taken and 1
    only if a unit of the enumeration did not marshal; and it panics only
    for want of a source argument, before touching anything. *)
Theorem prepare_all_or_nothing (isForce : bool) (trapCh : option nat) (w : world) :
  let r := doPrepareMirrorURLs isForce trapCh w in
  match r.2 with
  | Ret _ =>
      savedHeader (session r.1) = Some (Header (session r.1))
      ∧ CommandArgs (Header (session w)) ≠ []
  | Exited code =>
      discarded r.1
      ∧ ((code = 0 ∧ is_Some trapCh)
         ∨ (code = 1 ∧ ∃ sourceURL targetURLs sURLs err,
              CommandArgs (Header (session w)) = sourceURL :: targetURLs
              ∧ sURLs ∈ prepareMirrorURLs sourceURL targetURLs isForce
              ∧ jsonMarshal sURLs = inr err))
  | Panicked => CommandArgs (Header (session w)) = [] ∧ r.1 = w
  end.
Proof.
  simpl.
  destruct (CommandArgs (Header (session w))) as [|sourceURL targetURLs] eqn:Ha.
  { by rewrite (doPrepareMirrorURLs_no_args _ _ _ Ha). }
  rewrite (doPrepareMirrorURLs_unfold _ _ _ _ _ Ha).
  pose proof (prepareLoop_exits
    (selectLoop (prepareMirrorURLs sourceURL targetURLs isForce) trapCh)
    0 0 (addOut w [EvNewDataWriter])) as Hloop.
  destruct (prepareLoop _ _ _ _) as [w1 [totals|code|]]; simpl in *; [done| |done].
  destruct Hloop as [Hd [[-> Hin]|[-> (u & err & Hin & _ & Hm)]]];
    (split; [done|]).
  - left. split; [done|].
    apply selectLoop_trap_taken in Hin as (n & -> & _). by eexists.
  - right. split; [done|]. exists sourceURL, targetURLs, u, err.
    split; [done|]. split; [by eapply selectLoop_received|done].
Qed.

(** The reports of the enumeration errors, as the loop prints them. *)
Lemma prepareLoop_reports ch tb to w w' r :
  prepareLoop (Recv <$> ch) tb to w = (w', Ret r) →
  ∃ tr,
    out w' = out w ++ tr
    ∧ List.filter isErrorIf tr
        = (λ err, EvErrorIf (Trace err []) "Unable to prepare URLs for mirroring.")
            <$> enumerationErrors ch.
Proof.
  revert tb to w. induction ch as [|sURLs ch IH]; intros tb to w Hrun.
  - simpl in Hrun. injection Hrun as <- _. exists []. by rewrite app_nil_r.
  - rewrite fmap_cons in Hrun. unfold enumerationErrors in *. cbn [omap list_omap].
    destruct (Error sURLs) as [err|] eqn:He;
      [|destruct (isEmpty sURLs) eqn:Hm;
        [|destruct (jsonMarshal sURLs) as [line|err] eqn:Hj]].
    + rewrite (prepareLoop_error _ _ _ _ _ _ He) in Hrun.
      apply IH in Hrun as (tr & Ho & Hf).
      exists (((if interactive then [EvEraseline] else [])
               ++ [EvErrorIf (Trace err []) "Unable to prepare URLs for mirroring."])
              ++ tr).
      split; [rewrite Ho; unfold addOut; simpl; by rewrite <- !app_assoc|].
      rewrite !List.filter_app, Hf. by destruct interactive.
    + rewrite (prepareLoop_empty _ _ _ _ _ He Hm) in Hrun.
      apply IH in Hrun as (tr & Ho & Hf). by exists tr.
    + rewrite (prepareLoop_log _ _ _ _ _ _ He Hm Hj) in Hrun.
      apply IH in Hrun as (tr & Ho & Hf).
      exists (([EvFprintln line]
               ++ (if interactive then [EvScanBar (URL (SourceContent sURLs))]
                   else [])) ++ tr).
      split; [rewrite Ho; simpl; by rewrite <- !app_assoc|].
      rewrite !List.filter_app, Hf. by destruct interactive.
    + by rewrite (prepareLoop_marshal_fails _ _ _ _ _ _ He Hm Hj) in Hrun.
Qed.

(** X4.  Enumeration errors do not end preparation: when preparation
    returns, it has reported every error unit of the enumeration exactly
    once, in order, each with its trace, and has reported nothing else. *)
Theorem prepare_reports_errors (isForce : bool) (trapCh : option nat)
    (w w' : world) :
  doPrepareMirrorURLs isForce trapCh w = (w', Ret tt) →
  ∃ sourceURL targetURLs tr,
    CommandArgs (Header (session w)) = sourceURL :: targetURLs
    ∧ out w' = out w ++ tr
    ∧ List.filter isErrorIf tr
        = (λ err, EvErrorIf (Trace err []) "Unable to prepare URLs for mirroring.")
            <$> enumerationErrors (prepareMirrorURLs sourceURL targetURLs isForce).
Proof.
  intros Hrun.
  destruct (CommandArgs (Header (session w))) as [|sourceURL targetURLs] eqn:Ha.
  { by rewrite (doPrepareMirrorURLs_no_args _ _ _ Ha) in Hrun. }
  rewrite (doPrepareMirrorURLs_unfold _ _ _ _ _ Ha) in Hrun.
  destruct (prepareLoop _ _ _ _) as [w1 [totals|c|]] eqn:Hloop; [|done..].
  injection Hrun as <-.
  pose proof Hloop as Hret.
  apply prepareLoop_returns in Hret as (ch & _ & _ & Hsel & _); [|done..].
  pose proof (selectLoop_recv_inv _ _ _ Hsel) as ->.
  rewrite Hsel in Hloop.
  apply prepareLoop_reports in Hloop as (tr & Ho & Hf).
  exists sourceURL, targetURLs, ([EvNewDataWriter] ++ tr ++ [EvSave (setTotals (Header (session w1)) totals.1 totals.2)]).
  split; [done|]. split.
  - simpl. rewrite Ho. simpl. by rewrite <- !app_assoc.
  - rewrite !List.filter_app, Hf. simpl. by rewrite app_nil_r.
Qed.

(** X5.  With a source argument, preparation returns exactly when no
    interrupt is taken while the enumeration lasts and every unit of the
    enumeration that is to be logged marshals. *)
Theorem prepare_returns_iff (isForce : bool) (trapCh : option nat) (w : world)
    (sourceURL : string) (targetURLs : list string) :
  CommandArgs (Header (session w)) = sourceURL :: targetURLs →
  let ch := prepareMirrorURLs sourceURL targetURLs isForce in
  (doPrepareMirrorURLs isForce trapCh w).2 = Ret tt
  ↔ (∀ n, trapCh = Some n → (length ch < n)%nat)
    ∧ Forall (λ u, loggable u = true → ∃ l, jsonMarshal u = inl l) ch.
Proof.
  intros Ha ch. split.
  - intros Hrun.
    rewrite (doPrepareMirrorURLs_unfold _ _ _ _ _ Ha) in Hrun.
    fold ch in Hrun.
    destruct (prepareLoop _ _ _ _) as [w1 [totals|c|]] eqn:Hloop; [|done..].
    apply prepareLoop_returns in Hloop as (ch' & lines & _ & Hsel & Hl & _);
      [|done..].
    pose proof (selectLoop_recv_inv _ _ _ Hsel) as ->.
    split.
    + intros n ->. destruct (decide (length ch < n)%nat); [done|].
      rewrite selectLoop_trapped in Hsel by lia.
      assert (@Trapped mirrorURLs ∈ Recv <$> ch) as Hin.
      { rewrite <- Hsel. apply elem_of_app. right. by apply list_elem_of_singleton. }
      by apply list_elem_of_fmap in Hin as (? & ? & ?).
    + clear -Hl. revert lines Hl.
      induction ch as [|u ch IH]; intros lines Hl; [done|].
      simpl in Hl. constructor.
      * intros Hu. rewrite Hu in Hl. inversion Hl; subst. by eexists.
      * destruct (loggable u); [inversion Hl; subst|]; by eapply IH.
  - intros [Htrap Hm].
    assert (selectLoop ch trapCh = Recv <$> ch) as Hsel.
    { destruct trapCh as [n|]; [|apply selectLoop_never].
      apply selectLoop_late. by apply Htrap. }
    destruct trapCh as [n|].
    + rewrite (doPrepareMirrorURLs_unfold _ _ _ _ _ Ha). fold ch. rewrite Hsel.
      destruct (prepare_completes isForce w sourceURL targetURLs Ha Hm) as [w' Hw'].
      rewrite (doPrepareMirrorURLs_unfold _ _ _ _ _ Ha) in Hw'. fold ch in Hw'.
      rewrite selectLoop_never in Hw'.
      by destruct (prepareLoop _ _ _ _) as [w1 [totals|c|]].
    + destruct (prepare_completes isForce w sourceURL targetURLs Ha Hm) as [w' ->].
      done.
Qed.


(** ** More on the status monitor *)

Lemma statusLoop_cons (c : selected mirrorURLs) sel progressReader accntReader w :
  statusLoop (c :: sel) progressReader accntReader w =
    match onCase c w with
    | (w', Ret _) => statusLoop sel progressReader accntReader w'
    | (w', Exited code) => (w', Exited code)
    | (w', Panicked) => (w', Panicked)
    end.
Proof. by destruct c. Qed.

(** One case of the select: whether the loop goes on, what is saved, and
    that nothing else of the session changes. *)
Lemma onCase_run (c : selected mirrorURLs) w :
  let w1 := (onCase c w).1 in
  (onCase c w).2 = (if stops c then Exited 1 else Ret tt)
  ∧ dataFile (session w1) = dataFile (session w)
  ∧ (∃ tr, out w1 = out w ++ tr
           ∧ Forall (λ e, isTerminal e = false) tr
           ∧ length (List.filter isSave tr)
               = length (successes [c]) + (if stops c then 1 else 0))%nat
  ∧ Header (session w1)
      = (if successes [c] is url :: _
         then setLastCopied (Header (session w)) url else Header (session w))
  ∧ savedHeader (session w1)
      = (if bool_decide (successes [c] = []) && negb (stops c)
         then savedHeader (session w) else Some (Header (session w1))).
Proof.
  destruct c as [sURLs|]; unfold successes; simpl.
  - destruct (Error sURLs) as [err|] eqn:He; simpl.
    + rewrite (onStatus_failure _ _ _ He). unfold failureReport.
      destruct (skipClass (ToGoError err)); simpl;
        (split_and!; try done); eexists; (split; [try done; by rewrite <- app_assoc|]);
        destruct interactive; simpl; split; by repeat constructor.
    + rewrite (onStatus_success _ _ He). simpl.
      split_and!; try done. eexists. split; [done|]. split; by repeat constructor.
  - unfold onTrap. run. destruct interactive; simpl;
      (split_and!; try done); eexists; (split; [try done; by rewrite <- app_assoc|]);
      split; by repeat constructor.
Qed.

(** X6.  The error policy of a whole run of the monitor, with the progress
    bar of the session.  If one of the cases it meets is the trap or a
    status with an error outside the skip class, the process exits with
    status 1 at the first such case, whatever follows it, the header saved
    and the log untouched; otherwise the monitor returns. *)
Theorem statusLoop_policy (sel : list (selected mirrorURLs)) (total : Z)
    (accntReader : accounter) (w : world) :
  let run := statusLoop sel (sessionProgressReader total) accntReader in
  run w = statusLoop (untilStop sel) (sessionProgressReader total) accntReader w
  ∧ if existsb stops sel
    then ∃ w', run w = (w', Exited 1) ∧ preserved w w'
    else ∃ w', run w = (w', Ret tt).
Proof.
  simpl. revert w. induction sel as [|c sel IH]; intros w.
  - split; [done|]. unfold sessionProgressReader. simpl.
    destruct interactive; run; by eexists.
  - destruct (onCase_run c w) as (Ho & Hd & _ & _ & Hs).
    cbn [untilStop existsb]. destruct (stops c) eqn:Hstop;
      cbn [orb negb] in *; rewrite !statusLoop_cons;
      destruct (onCase c w) as [w1 o]; cbn [fst snd] in *; subst o.
    + split; [done|]. exists w1. split; [done|].
      rewrite andb_false_r in Hs. by split.
    + destruct (IH w1) as [Heq Hrest]. split; [done|].
      destruct (existsb stops sel).
      * destruct Hrest as (w' & Hr & Hsv & Hdf). exists w'. split; [done|].
        split; [done|]. by rewrite Hdf.
      * done.
Qed.

Lemma successes_cons c sel : successes (c :: sel) = successes [c] ++ successes sel.
Proof. unfold successes. simpl. by destruct (match c with Recv _ => _ | _ => _ end). Qed.

Lemma successes_one (c : selected mirrorURLs) :
  successes [c] = [] ∨ ∃ url, successes [c] = [url].
Proof.
  unfold successes. simpl.
  destruct (match c with Recv _ => _ | _ => _ end); eauto.
Qed.

Lemma statusLoop_whole_run (sel : list (selected mirrorURLs))
    (progressReader : option barSend) (accntReader : accounter) (w : world) :
  let w' := (statusLoop sel progressReader accntReader w).1 in
  let applied := successes (untilStop sel) in
  Header (session w')
    = (if last applied is Some url
       then setLastCopied (Header (session w)) url else Header (session w))
  ∧ savedHeader (session w')
      = (if bool_decide (applied = []) && negb (existsb stops sel)
         then savedHeader (session w) else Some (Header (session w')))
  ∧ ∃ tr, out w' = out w ++ tr
          ∧ length (List.filter isSave tr)
              = (length applied + (if existsb stops sel then 1 else 0))%nat.
Proof.
  simpl. revert w. induction sel as [|c sel IH]; intros w.
  - simpl. split; [|split].
    + destruct interactive, progressReader; by run.
    + destruct interactive, progressReader; by run.
    + destruct interactive, progressReader; run; eexists;
        (split; [reflexivity || by rewrite app_nil_r|]);
        by rewrite ?List.filter_app.
  - destruct (onCase_run c w) as (Ho & Hd & (tr1 & Hout & _ & Hsave) & Hh & Hs).
    rewrite statusLoop_cons. cbn [untilStop existsb].
    destruct (onCase c w) as [w1 o]; cbn [fst snd] in *; subst o.
    destruct (stops c) eqn:Hstop; cbn [fst snd orb negb] in *.
    + rewrite andb_false_r in *.
      split; [|split; [done|]].
      * rewrite Hh. by destruct (successes_one c) as [->|[url ->]].
      * exists tr1. split; [done|]. by rewrite Hsave.
    + destruct (IH w1) as (Hl & Hsv & tr2 & Hout2 & Hsave2).
      rewrite (successes_cons c), Hsv.
      rewrite andb_true_r in Hs.
      split; [|split].
      * rewrite Hl, Hh. destruct (successes_one c) as [->|[url ->]]; [done|].
        cbn [app]. destruct (successes (untilStop sel)) as [|u l]; [done|].
        rewrite last_cons_cons.
        destruct (last (u :: l)) eqn:Hlast; [done|]. by apply last_None in Hlast.
      * destruct (successes_one c) as [Hc|[url Hc]]; rewrite Hc in *.
        -- cbn [app]. rewrite bool_decide_eq_true_2 in Hs by done.
           rewrite Hs. by destruct (_ && _).
        -- cbn [app]. rewrite (bool_decide_eq_false_2 (url :: _ = [])) by done.
           cbn [andb].
           destruct (bool_decide _ && _) eqn:Hb; [|done].
           apply andb_prop in Hb as [Hb _]. apply bool_decide_eq_true_1 in Hb.
           rewrite bool_decide_eq_false_2 in Hs by done.
           by rewrite Hl, Hb.
      * exists (tr1 ++ tr2). rewrite Hout2, Hout, app_assoc. split; [done|].
        rewrite List.filter_app, !length_app, Hsave, Hsave2. lia.
Qed.

(** X7.  The checkpoint after a whole run of the monitor.  The header in
    memory is the one from before with [LastCopied] set to the source URL
    of the last success among the cases met up to the one that stopped the
    monitor, and is the one from before when there is none; a failed unit,
    and every unit whose status comes after the stop, leaves it alone.
    The header is saved once per success and once more at the stop, so
    that the header on disk is the header in memory unless nothing of the
    kind happened. *)
Theorem statusLoop_checkpoint (sel : list (selected mirrorURLs))
    (progressReader : option barSend) (accntReader : accounter) (w : world) :
  let w' := (statusLoop sel progressReader accntReader w).1 in
  let applied := successes (untilStop sel) in
  Header (session w')
    = (if last applied is Some url
       then setLastCopied (Header (session w)) url else Header (session w))
  ∧ LastCopied (Header (session w'))
      = default (LastCopied (Header (session w))) (last applied)
  ∧ savedHeader (session w')
      = (if bool_decide (applied = []) && negb (existsb stops sel)
         then savedHeader (session w) else Some (Header (session w')))
  ∧ ∃ tr, out w' = out w ++ tr
          ∧ length (List.filter isSave tr)
              = (length applied + (if existsb stops sel then 1 else 0))%nat.
Proof.
  destruct (statusLoop_whole_run sel progressReader accntReader w)
    as (Hh & Hsv & Hout).
  simpl. split; [exact Hh|]. split; [|split; [exact Hsv|exact Hout]].
  rewrite Hh. by destruct (last (successes (untilStop sel))).
Qed.

(** X8.  The terminal accounting of a run.  A monitor that returns has
    made exactly one terminal call, as its last call: the end of the
    progress bar in the interactive mode, the accounting line otherwise.
    A monitor that exits or panics has made none. *)
Theorem statusLoop_terminal (sel : list (selected mirrorURLs))
    (progressReader : option barSend) (accntReader : accounter) (w : world) :
  let r := statusLoop sel progressReader accntReader w in
  ∃ tr,
    out r.1 = out w ++ tr
    ∧ if r.2 is Ret _
      then ∃ tr0,
             tr = tr0 ++ [if interactive then EvBar Finish else EvPrintStat accntReader]
             ∧ Forall (λ e, isTerminal e = false) tr0
      else Forall (λ e, isTerminal e = false) tr.
Proof.
  simpl. revert w. induction sel as [|c sel IH]; intros w.
  - simpl. destruct interactive, progressReader; run;
      first [ by eexists; split; [reflexivity|]; exists []
            | exists []; by rewrite app_nil_r ].
  - destruct (onCase_run c w) as (Ho & _ & (tr1 & Hout & Hnt & _) & _).
    rewrite statusLoop_cons.
    destruct (onCase c w) as [w1 o]; simpl in *; subst o.
    destruct (stops c); [by exists tr1|].
    destruct (IH w1) as (tr2 & Hout2 & Hterm).
    exists (tr1 ++ tr2). rewrite Hout2, Hout, app_assoc. split; [done|].
    destruct (statusLoop sel progressReader accntReader w1).2.
    + destruct Hterm as (tr0 & -> & Hnt0). exists (tr1 ++ tr0).
      split; [by rewrite app_assoc|]. by apply Forall_app_2.
    + by apply Forall_app_2.
    + by apply Forall_app_2.
Qed.


(** ** More on the log scanner *)

Lemma scanLoop_outcome_gen lines isCopiedSt progressReader w :
  (scanLoop lines isCopiedSt progressReader w).2 =
    if negb globalDebugFlag && negb globalJSONFlag
       && (if progressReader is None then true else false)
       && existsb snd (resumePlan lines isCopiedSt)
    then Panicked else Ret tt.
Proof.
  revert isCopiedSt w. induction lines as [|line lines IH]; intros st w.
  - simpl. by rewrite andb_false_r.
  - rewrite scanLoop_cons. simpl.
    destruct (isCopied st _) as [[|] st'] eqn:Hc; simpl.
    + rewrite doMirrorFake_run.
      destruct (negb globalDebugFlag && negb globalJSONFlag) eqn:Hg;
        [destruct progressReader|]; simpl.
      * by rewrite IH.
      * done.
      * by rewrite IH.
    + by rewrite IH.
Qed.

(** X9.  How the scanner ends.  It never exits the process and never
    touches the session.  It panics exactly when the progress bar is nil,
    neither the debug nor the JSON flag is set, and the resume closure
    answers true for some unit of the log: the replay of a copied unit
    calls the bar on the guard [!globalDebugFlag && !globalJSONFlag].
    With the bar of the session, which is nil unless the mode is
    interactive, that is the quiet mode without the two flags. *)
Theorem scanLoop_outcome (lines : list string) (isCopiedSt : copiedState)
    (progressReader : option barSend) (total : Z) (w : world) :
  let plan := resumePlan lines isCopiedSt in
  session (scanLoop lines isCopiedSt progressReader w).1 = session w
  ∧ (scanLoop lines isCopiedSt progressReader w).2 =
      (if negb globalDebugFlag && negb globalJSONFlag
          && (if progressReader is None then true else false)
          && existsb snd plan
       then Panicked else Ret tt)
  ∧ (scanLoop lines isCopiedSt (sessionProgressReader total) w).2 =
      (if globalQuietFlag && negb globalDebugFlag && negb globalJSONFlag
          && existsb snd plan
       then Panicked else Ret tt).
Proof.
  simpl. split; [|split].
  - by destruct (scanLoop_run lines isCopiedSt progressReader w) as (tr & _ & Hs & _).
  - apply scanLoop_outcome_gen.
  - rewrite scanLoop_outcome_gen. unfold sessionProgressReader.
    by destruct globalQuietFlag, globalDebugFlag, globalJSONFlag.
Qed.

Lemma planEvents_no_close plan :
  Forall (λ e, isCloseStatusCh e = false) (plan ≫= planEvents).
Proof.
  induction plan as [|[u [|]] plan IH]; [by constructor| |];
    rewrite plan_bind_cons; (apply Forall_app_2; [|done]).
  - destruct (planEvents_copied u) as [-> | ->]; by repeat constructor.
  - by repeat constructor.
Qed.

(** X10.  The goroutine that performs the mirroring closes the status
    channel exactly once and then calls [wg.Done()], as its last two
    calls, whether the scanner returns or panics; when the scanner
    returns, the close comes right after the wait for the tasks.  What
    comes before is what the scanner did.  The goroutine never exits the
    process and leaves the session alone. *)
Theorem mirrorRoutine_closes_status (scanner : list string)
    (isCopiedSt : copiedState) (progressReader : option barSend) (w : world) :
  let r := mirrorRoutine scanner isCopiedSt progressReader w in
  let s := scanLoop scanner isCopiedSt progressReader w in
  ∃ tr,
    out s.1 = out w ++ tr
    ∧ out r.1 = out w ++ tr
                  ++ (if s.2 is Ret _ then [EvWgWait mirrorWg] else [])
                  ++ [EvCloseStatusCh; EvWgDone wg]
    ∧ Forall (λ e, isCloseStatusCh e = false) tr
    ∧ r.2 = s.2
    ∧ (∀ code, r.2 ≠ Exited code)
    ∧ session r.1 = session w.
Proof.
  simpl.
  destruct (scanLoop_run scanner isCopiedSt progressReader w)
    as (tr & Ho & Hs & Hp & _).
  pose proof (scanLoop_outcome_gen scanner isCopiedSt progressReader w) as Hr.
  exists tr. split; [done|].
  assert (Forall (λ e, isCloseStatusCh e = false) tr) as Hnc.
  { eapply Forall_prefix; [done|]. apply planEvents_no_close. }
  unfold mirrorRoutine.
  destruct (scanLoop scanner isCopiedSt progressReader w) as [w1 o] eqn:Hrun.
  simpl in *.
  destruct (_ && _) in Hr; subst o; run; rewrite Hrun; simpl;
    rewrite Ho, <- ?app_assoc; by split_and!.
Qed.

(** ** Progress of the bounded pool *)

Lemma pendingReleases_done ts : Forall (λ t, t = []) ts → pendingReleases ts = 0%nat.
Proof.
  induction 1 as [|t ts -> _ IH]; [done|]. by rewrite pendingReleases_cons, IH.
Qed.

Lemma tasks_done_or_not (ts : list (list event)) :
  Forall (λ t, t = []) ts
  ∨ ∃ ts1 e rest ts2, ts = ts1 ++ (e :: rest) :: ts2.
Proof.
  induction ts as [|t ts [IH|(ts1 & e & rest & ts2 & ->)]].
  - by left.
  - destruct t as [|e rest]; [left; by constructor|].
    right. by exists [], e, rest, ts.
  - right. by exists (t :: ts1), e, rest, ts2.
Qed.

(** X11.  The pool cannot get stuck.  In every state the scanner and the
    tasks it has started can reach, either the scanner and every task
    have made all their calls, or one of them can make its next call: a
    task never waits, and the scanner waits for a slot only while a task
    that will release one is running. *)
Theorem pool_progress (NumCPU : Z) (lines : list string)
    (isCopiedSt : copiedState) (progressReader : option barSend)
    (accountingReader : accounter) (w : world) (p : pool) :
  let cap := Z.to_nat (mirrorQueueCap NumCPU) in
  let task := λ u, callsOf (doMirror u progressReader accountingReader) (session w) in
  rtc (poolStep cap task)
      (mkPool 0 (callsOf (scanLoop lines isCopiedSt progressReader) (session w)) [])
      p →
  (scannerTodo p = [] ∧ Forall (λ t, t = []) (tasksTodo p))
  ∨ ∃ p', poolStep cap task p p'.
Proof.
  intros cap task Hsteps.
  assert (1 ≤ cap)%nat as Hcap1 by (unfold cap, mirrorQueueCap; lia).
  eapply pool_reachable_inv in Hsteps as (holding & Halt & Hq & Hcap);
    [|intros u; apply doMirror_one_release
     |exists false; split; [apply scanLoop_alternates|simpl; split; [done|lia]]].
  destruct p as [n sc ts]. simpl in *.
  destruct (tasks_done_or_not ts) as [Hdone|(ts1 & e & rest & ts2 & ->)].
  - rewrite (pendingReleases_done _ Hdone) in Hq.
    destruct sc as [|e rest]; [by left|]. right.
    destruct (isAcquire e) eqn:Ha; [|destruct (isGo e) eqn:Hg].
    + destruct e; try discriminate. simpl in Halt.
      apply andb_true_iff in Halt as [Hh _]. destruct holding; [done|].
      eexists. apply step_acquire. simpl in Hq. lia.
    + destruct e; try discriminate. eexists. apply step_go.
    + eexists. by apply step_scanner.
  - right. destruct (isRelease e) eqn:He.
    + destruct e; try discriminate.
      rewrite pendingReleases_app, pendingReleases_cons in Hq. simpl in Hq.
      destruct n as [|n]; [lia|]. eexists. apply step_release.
    + eexists. by apply step_task.
Qed.


(** ** The command as a whole *)

Lemma mainMirror_run ctx runSession w w1 w2 s :
  checkMirrorSyntax ctx w = (w1, Ret tt) →
  newSessionV5 w1 = (w2, Ret s) →
  mainMirror ctx runSession w =
    match osGetwd.2 with
    | Some e =>
        (mkWorld (dropSession (mkSession
                    (setRootPath (setCommandType (Header s) "mirror") osGetwd.1)
                    (savedHeader s) (dataFile s)))
                 (out w2 ++ [EvDelete;
                             EvFatalIf (NewError e) "Unable to get current working folder."]),
         Exited 1)
    | None =>
        match (args2URLs (ctxArgs ctx)).2 with
        | Some err =>
            (mkWorld (dropSession (commandSession ctx s))
                     (out w2 ++ [EvDelete;
                                 EvFatalIf (Trace err (ctxArgs ctx))
                                   ("One or more unknown argument types found in ‘"
                                      +:+ sprintSlice (ctxArgs ctx) +:+ "’.")]),
             Exited 1)
        | None => (runSession;; sessionDelete) (mkWorld (commandSession ctx s) (out w2))
        end
    end.
Proof.
  intros Hc Hn. unfold mainMirror, commandSession, dropSession.
  run. rewrite Hc. simpl. rewrite Hn. simpl.
  destruct osGetwd.2 as [e|]; simpl.
  - by rewrite <- app_assoc.
  - destruct (args2URLs (ctxArgs ctx)).2 as [err|]; simpl; [|done].
    by rewrite <- app_assoc.
Qed.

(** X12.  What [mainMirror] hands to the session phase.  When the syntax
    check and the creation of the session return, the working folder is
    known and the arguments are URLs, the session phase starts on the new
    session with the command type, the root path, the force flag and the
    arguments filled in, and nothing has been printed or saved by
    [mainMirror].  The force flag the session phase reads back from the
    header is the one of the command line.  If the session phase exits
    the process, the final [Delete] does not run and the session is left
    as the phase left it. *)
Theorem mainMirror_hands_over (ctx : cliContext) (runSession : M unit)
    (w w1 w2 : world) (s : sessionV5) :
  checkMirrorSyntax ctx w = (w1, Ret tt) →
  newSessionV5 w1 = (w2, Ret s) →
  osGetwd.2 = None →
  (args2URLs (ctxArgs ctx)).2 = None →
  let w0 := mkWorld (commandSession ctx s) (out w2) in
  mainMirror ctx runSession w = (runSession;; sessionDelete) w0
  ∧ (∀ trapCh,
       doMirrorSession_prepare trapCh w0
       = when (negb (HasData (commandSession ctx s)))
              (doPrepareMirrorURLs (ctxBool ctx "force") trapCh) w0)
  ∧ (∀ w' code, runSession w0 = (w', Exited code) →
       mainMirror ctx runSession w = (w', Exited code)).
Proof.
  intros Hc Hn Hwd Hargs w0.
  pose proof (mainMirror_run ctx runSession _ _ _ _ Hc Hn) as Hrun.
  rewrite Hwd, Hargs in Hrun. split; [done|]. split.
  - intros trapCh. unfold doMirrorSession_prepare, w0, commandSession.
    run. by rewrite lookup_insert_eq.
  - intros w' code Hexit. rewrite Hrun. fold w0. run. by rewrite Hexit.
Qed.

(** X13.  A failed set-up.  When the working folder cannot be read, or
    the arguments are not URLs, [mainMirror] deletes the session it has
    just created, reports the error and exits with status 1: these are
    its only two calls, so the session phase does not start, and neither
    header nor log is left on disk.  The error of the working folder
    comes first. *)
Theorem mainMirror_setup_failure (ctx : cliContext) (runSession : M unit)
    (w w1 w2 : world) (s : sessionV5) :
  checkMirrorSyntax ctx w = (w1, Ret tt) →
  newSessionV5 w1 = (w2, Ret s) →
  is_Some osGetwd.2 ∨ is_Some (args2URLs (ctxArgs ctx)).2 →
  ∃ w' err msg,
    mainMirror ctx runSession w = (w', Exited 1)
    ∧ discarded w'
    ∧ out w' = out w2 ++ [EvDelete; EvFatalIf err msg]
    ∧ (∀ e, osGetwd.2 = Some e → err = NewError e)
    ∧ (∀ e, osGetwd.2 = None → (args2URLs (ctxArgs ctx)).2 = Some e →
         err = Trace e (ctxArgs ctx)).
Proof.
  intros Hc Hn Hfail.
  rewrite (mainMirror_run ctx runSession _ _ _ _ Hc Hn).
  destruct osGetwd.2 as [e|].
  { eexists _, _, _. split_and!; try done; congruence. }
  destruct (args2URLs (ctxArgs ctx)).2 as [err|].
  { eexists _, _, _. split_and!; try done; congruence. }
  by destruct Hfail as [[? ?]|[? ?]].
Qed.

(** X14.  [mainMirror] never returns with a session left on disk:
    whatever the collaborators and the session phase do, when it
    returns its last call is [Delete], and neither header nor log is
    left. *)
Theorem mainMirror_no_session_left (ctx : cliContext) (runSession : M unit)
    (w : world) :
  (mainMirror ctx runSession w).2 = Ret tt →
  discarded (mainMirror ctx runSession w).1
  ∧ ∃ tr, out (mainMirror ctx runSession w).1 = tr ++ [EvDelete].
Proof.
  destruct (checkMirrorSyntax ctx w) as [w1 [[]| |]] eqn:Hc;
    [|unfold mainMirror; run; by rewrite Hc..].
  destruct (newSessionV5 w1) as [w2 [s| |]] eqn:Hn;
    [|unfold mainMirror; run; rewrite Hc; simpl; by rewrite Hn..].
  rewrite (mainMirror_run ctx runSession _ _ _ _ Hc Hn).
  destruct osGetwd.2 as [e|]; [done|].
  destruct (args2URLs (ctxArgs ctx)).2 as [err|]; [done|].
  run. destruct (runSession _) as [w3 [[]| |]]; simpl; try done.
  intros _. split; [done|]. by eexists.
Qed.


(** ** The session phase *)

(** X15.  What the two goroutines of [doMirrorSession] are given.  On a
    session with data, preparation is skipped and the session is handed
    over as it is; on any other, preparation runs with the force flag of
    the header, which reads as false when the header has none, and an
    exit or a panic of preparation ends the session phase.  The
    accounter and the progress bar are built on [TotalBytes] as
    preparation left it, the bar only in the interactive mode; the
    scanner reads the log as preparation left it; and the resume closure
    is built on [LastCopied], which preparation does not change. *)
Theorem doMirrorSession_wiring (trapCh : option nat)
    (goroutines : accounter → option barSend → list string → copiedState → M unit)
    (w : world) :
  let isForce := default false (CommandBoolFlags (Header (session w)) !! "force") in
  let p := if HasData (session w) then (w, Ret tt)
           else doPrepareMirrorURLs isForce trapCh w in
  doMirrorSession trapCh goroutines w =
    match p.2 with
    | Ret _ =>
        goroutines (newAccounter (TotalBytes (Header (session p.1))))
                   (sessionProgressReader (TotalBytes (Header (session p.1))))
                   (NewScanner (default [] (dataFile (session p.1))))
                   (isCopiedFactory (LastCopied (Header (session w))))
                   p.1
    | Exited code => (p.1, Exited code)
    | Panicked => (p.1, Panicked)
    end.
Proof.
  simpl. unfold doMirrorSession, doMirrorSession_prepare, doMirrorSession_readers,
    sessionNewDataReader, sessionProgressReader.
  destruct (HasData (session w)) eqn:Hdata.
  - run. by rewrite Hdata.
  - run. rewrite Hdata. simpl.
    destruct (doPrepareMirrorURLs _ trapCh w) as [w' [[]| |]] eqn:Hrun; simpl; try done.
    do 2 f_equal.
    destruct (CommandArgs (Header (session w))) as [|sourceURL targetURLs] eqn:Ha.
    { by rewrite (doPrepareMirrorURLs_no_args _ _ _ Ha) in Hrun. }
    rewrite (doPrepareMirrorURLs_unfold _ _ _ _ _ Ha) in Hrun.
    destruct (prepareLoop _ _ _ _) as [w1 [totals|c|]] eqn:Hloop; [|done..].
    injection Hrun as <-.
    apply prepareLoop_returns in Hloop; [|done..].
    destruct Hloop as (_ & _ & _ & _ & _ & Hh & _).
    simpl. by rewrite Hh.
Qed.


(** ** The scanner of the log *)

Lemma NewScanner_short (pre rest : list string) :
  Forall (λ l, Z.of_nat (String.length l) < MaxScanTokenSize) pre →
  NewScanner (pre ++ rest) = pre ++ NewScanner rest.
Proof.
  induction 1 as [|l pre Hl _ IH]; [done|]. cbn [app NewScanner].
  apply Z.ltb_lt in Hl. by rewrite Hl, IH.
Qed.

Lemma NewScanner_long (long : string) (post : list string) :
  MaxScanTokenSize ≤ Z.of_nat (String.length long) →
  NewScanner (long :: post) = [].
Proof. intros Hl. cbn [NewScanner]. apply Z.ltb_ge in Hl. by rewrite Hl. Qed.

Lemma resumePlan_units lines isCopiedSt u (b : bool) :
  (u, b) ∈ resumePlan lines isCopiedSt →
  ∃ l, l ∈ lines ∧ u = (jsonUnmarshal l).1.
Proof.
  revert isCopiedSt. induction lines as [|line lines IH]; intros st; simpl.
  - by intros ?%elem_of_nil.
  - destruct (isCopied st _) as [copied st'].
    intros [[= -> ->]|Hin]%elem_of_cons.
    + exists line. split; [left|done].
    + destruct (IH _ Hin) as (l & Hl & ->). exists l. split; [by right|done].
Qed.

Lemma planEvents_no_report plan :
  Forall (λ e, isReport e = false) (plan ≫= planEvents).
Proof.
  induction plan as [|[u [|]] plan IH]; [by constructor| |];
    rewrite plan_bind_cons; (apply Forall_app_2; [|done]).
  - destruct (planEvents_copied u) as [-> | ->]; by repeat constructor.
  - by repeat constructor.
Qed.

(** X19.  A line of the log that does not fit the scanner's buffer ends
    the scan without a word.  When the log holds a line of
    [MaxScanTokenSize] bytes or more after lines that are all shorter,
    the scanner [doMirrorSession] sets up yields the lines before it and
    nothing else; over them the scanning loop reports nothing to the
    user, and every task it starts is for the unit of one of those
    lines: the unit of the long line and the units after it are never
    transferred. *)
Theorem scanner_stops_at_long_line (pre post : list string) (long : string)
    (isCopiedSt : copiedState) (progressReader : option barSend) (w : world) :
  Forall (λ l, Z.of_nat (String.length l) < MaxScanTokenSize) pre →
  MaxScanTokenSize ≤ Z.of_nat (String.length long) →
  dataFile (session w) = Some (pre ++ long :: post) →
  doMirrorSession_readers w
    = (w, Ret (newAccounter (TotalBytes (Header (session w))),
               sessionProgressReader (TotalBytes (Header (session w))),
               pre,
               isCopiedFactory (LastCopied (Header (session w)))))
  ∧ ∃ tr,
      out (scanLoop pre isCopiedSt progressReader w).1 = out w ++ tr
      ∧ Forall (λ e, isReport e = false) tr
      ∧ ∀ u, EvGo u ∈ tr → ∃ l, l ∈ pre ∧ u = (jsonUnmarshal l).1.
Proof.
  intros Hpre Hlong Hlog. split.
  - unfold doMirrorSession_readers, sessionNewDataReader, sessionProgressReader.
    run. rewrite Hlog. simpl.
    by rewrite (NewScanner_short _ _ Hpre), (NewScanner_long _ _ Hlong), app_nil_r.
  - destruct (scanLoop_run pre isCopiedSt progressReader w)
      as (tr & Ho & _ & Hp & _).
    exists tr. split; [done|]. split.
    + eapply Forall_prefix; [done|]. apply planEvents_no_report.
    + intros u Hin. apply (resumePlan_units pre isCopiedSt u false).
      apply planEvents_go_pending. destruct Hp as [k ->].
      apply elem_of_app. by left.
Qed.

End Engine.

(** The scanner never looks at the error [json.Unmarshal] returns: it
    behaves as with a decoder that reports none. *)
Lemma scanLoop_unmarshal_error_unused (globalJSONFlag globalDebugFlag : bool)
    (jsonUnmarshal : string → mirrorURLs * option goError)
    (copiedState : Type) (isCopied : copiedState → string → bool * copiedState)
    (lines : list string) (isCopiedSt : copiedState)
    (progressReader : option barSend) (w : world) :
  scanLoop globalJSONFlag globalDebugFlag jsonUnmarshal copiedState isCopied
           lines isCopiedSt progressReader w
  = scanLoop globalJSONFlag globalDebugFlag (λ line, ((jsonUnmarshal line).1, None))
             copiedState isCopied lines isCopiedSt progressReader w.
Proof.
  revert isCopiedSt w. induction lines as [|line lines IH]; intros st w; [done|].
  rewrite !scanLoop_cons. simpl.
  destruct (isCopied st _) as [[|] st']; simpl; [|apply IH].
  destruct (doMirrorFake _ _ _ _ _) as [w' [[]|c|]]; [apply IH|done..].
Qed.

(** C5.  A log line that does not decode: [json.Unmarshal] returns an
    error, and the scanner goes on with the zero-valued unit as a pending
    transfer.  No report, no status and no exit follows from the error. *)
Theorem scanLoop_drops_unmarshal_error :
  (Fixture.jsonUnmarshal "{").2
    = Some (OtherError "unexpected end of JSON input")
  ∧ scanLoop false false Fixture.jsonUnmarshal Fixture.copiedState
             Fixture.isCopied ["{"] (Fixture.isCopiedFactory "")
             (Some (newProgressBar 0)) Fixture.fresh
    = (addOut Fixture.fresh [EvAcquire; EvWgAdd mirrorWg; EvGo Fixture.zero], Ret tt).
Proof. split; reflexivity. Qed.

(** C10.  Quiet mode on a resumed session: the session sets up no progress
    bar, the first unit of the log is already copied, and the replay calls
    [Progress] through the nil pointer; the scanner panics. *)
Theorem quiet_resume_dereferences_nil :
  doMirrorSession_readers true false Fixture.copiedState Fixture.isCopiedFactory
                          Fixture.resumed
    = (Fixture.resumed,
       Ret (newAccounter 60, None, ["photos/a"; "photos/b"; "photos/c"],
            Fixture.isCopiedFactory "photos/a"))
  ∧ doMirrorFake false false (Fixture.transferUnit "photos/a" 10) None
                 Fixture.resumed
    = (Fixture.resumed, Panicked)
  ∧ mirrorRoutine false false Fixture.jsonUnmarshal Fixture.copiedState
                  Fixture.isCopied ["photos/a"; "photos/b"; "photos/c"]
                  (Fixture.isCopiedFactory "photos/a") None Fixture.resumed
    = (addOut Fixture.resumed [EvCloseStatusCh; EvWgDone wg], Panicked).
Proof. split_and!; reflexivity. Qed.

(** The counterexample to C4 as stated: an interrupt during preparation,
    taken after one unit, ends the process with status 0, the session
    dropped. *)
Lemma prepare_interrupt_exits_zero :
  (doMirrorSession_prepare false false Fixture.prepareMirrorURLs
     Fixture.isEmpty Fixture.jsonMarshal Fixture.HasData (Some 1%nat)
     Fixture.fresh).2 = Exited 0
  ∧ discarded
      (doMirrorSession_prepare false false Fixture.prepareMirrorURLs
         Fixture.isEmpty Fixture.jsonMarshal Fixture.HasData (Some 1%nat)
         Fixture.fresh).1.
Proof. split; [reflexivity|]. split; reflexivity. Qed.

(** The totals of the tree with objects of sizes 10, 20 and 30. *)
Lemma prepare_totals_witness :
  ∃ w',
    doPrepareMirrorURLs false false Fixture.prepareMirrorURLs Fixture.isEmpty
      Fixture.jsonMarshal false None Fixture.fresh = (w', Ret tt)
    ∧ TotalBytes (Header (session w')) = 60
    ∧ TotalObjects (Header (session w')) = 3
    ∧ dataFile (session w') = Some ["photos/a"; "photos/b"; "photos/c"].
Proof.
  exists (doPrepareMirrorURLs false false Fixture.prepareMirrorURLs Fixture.isEmpty
            Fixture.jsonMarshal false None Fixture.fresh).1.
  assert (doPrepareMirrorURLs false false Fixture.prepareMirrorURLs
            Fixture.isEmpty Fixture.jsonMarshal false None Fixture.fresh
          = ((doPrepareMirrorURLs false false Fixture.prepareMirrorURLs
                Fixture.isEmpty Fixture.jsonMarshal false None Fixture.fresh).1,
             Ret tt)) as Hrun by (vm_compute; reflexivity).
  split; [exact Hrun|].
  destruct (prepare_totals false false Fixture.prepareMirrorURLs Fixture.isEmpty
              Fixture.jsonMarshal false None Fixture.fresh _ Hrun)
    as (sourceURL & targetURLs & lines & tr & Ha & _ & _ & _ & _ & Hb & Hn & _).
  injection Ha as <- <-.
  split; [apply Hb|split; [apply Hn|vm_compute; reflexivity]];
    unfold Int64.in_range, Int64.min_int, Int64.max_int; simpl; lia.
Defined.

(** A task on the object that cannot be opened, in each output mode with
    the progress bar of that mode. *)
Lemma doMirror_source_failure_witness :
  Error (Fixture.transferUnit "photos/missing" 10) = None
  ∧ Fixture.getSource "photos/missing"
      = (nilReader, 0, Some (NewError (PathNotFound "photos/missing")))
  ∧ ∃ tr,
      out (doMirror false false Fixture.getSource Fixture.putTargets
             (Fixture.transferUnit "photos/missing" 10)
             (Some (newProgressBar 60)) (newAccounter 60) Fixture.resumed).1
        = out Fixture.resumed ++ tr
      ∧ Forall (λ e, isPutTargets e = false) tr
      ∧ ((negb false && negb false = true → is_Some (Some (newProgressBar 60))) →
          (doMirror false false Fixture.getSource Fixture.putTargets
             (Fixture.transferUnit "photos/missing" 10)
             (Some (newProgressBar 60)) (newAccounter 60) Fixture.resumed).2
            = Ret tt
          ∧ List.filter isSend tr =
              [EvSend (setError (Fixture.transferUnit "photos/missing" 10)
                         (Some (Trace (NewError (PathNotFound "photos/missing"))
                                      ["photos/missing"])))]
          ∧ ∃ status reported,
              List.filter isSend tr = [EvSend status]
              ∧ Error status = Some reported
              ∧ ToGoError reported = ToGoError (NewError (PathNotFound "photos/missing"))
              ∧ callInfo reported
                  = callInfo (NewError (PathNotFound "photos/missing"))
                      ++ [["photos/missing"]]
              ∧ SourceContent status
                  = SourceContent (Fixture.transferUnit "photos/missing" 10)
              ∧ TargetContents status
                  = TargetContents (Fixture.transferUnit "photos/missing" 10)).
Proof.
  split; [reflexivity|]. split; [reflexivity|].
  exact (doMirror_source_failure false false Fixture.getSource Fixture.putTargets
           (Fixture.transferUnit "photos/missing" 10)
           (Some (newProgressBar 60)) (newAccounter 60)
           nilReader 0 (NewError (PathNotFound "photos/missing"))
           Fixture.resumed eq_refl eq_refl).
Defined.

(** An interrupt taken after one unit: during execution of the resumed
    session, and during preparation of the fresh one. *)
Lemma interrupt_exit_status_witness :
  (∃ w' code,
     statusLoop false false
       (selectLoop [Fixture.transferUnit "photos/b" 20;
                    Fixture.transferUnit "photos/c" 30] (Some 1%nat))
       (Some (newProgressBar 60)) (newAccounter 60) Fixture.resumed
       = (w', Exited code)
     ∧ code ≠ 0 ∧ preserved Fixture.resumed w'
     ∧ LastCopied (Header (session w')) = "photos/b")
  ∧ (∃ w',
       doPrepareMirrorURLs false false Fixture.prepareMirrorURLs Fixture.isEmpty
         Fixture.jsonMarshal false (Some 1%nat) Fixture.fresh = (w', Exited 0)
       ∧ discarded w').
Proof.
  destruct (interrupt_exit_status false false Fixture.prepareMirrorURLs
              Fixture.isEmpty Fixture.jsonMarshal 1) as [Hexec Hprep].
  split.
  - destruct (Hexec [Fixture.transferUnit "photos/b" 20;
                     Fixture.transferUnit "photos/c" 30]
                    (Some (newProgressBar 60)) (newAccounter 60) Fixture.resumed)
      as (w' & code & Hrun & Hcode & Hp); [simpl; lia|].
    exists w', code. split; [exact Hrun|]. split; [exact Hcode|].
    split; [exact Hp|].
    vm_compute in Hrun. injection Hrun as <- _. reflexivity.
  - apply (Hprep false Fixture.fresh "photos" ["backup"]); [reflexivity|simpl; lia|].
    repeat constructor; intros _; by eexists.
Defined.

(** ** The engine on the concrete session *)

(** Skip and continue: of three results the second fails with a path that
    is not found; the monitor returns and the checkpoint is the third
    unit. *)
Example skip_continue :
  let failed :=
    setError (Fixture.transferUnit "photos/b" 20)
             (Some (NewError (PathNotFound "photos/b"))) in
  let r := statusLoop true false
             [Recv (Fixture.transferUnit "photos/a" 10); Recv failed;
              Recv (Fixture.transferUnit "photos/c" 30)]
             None (newAccounter 60) Fixture.fresh in
  r.2 = Ret tt
  ∧ LastCopied (Header (session r.1)) = "photos/c"
  ∧ List.filter isSave (out r.1)
      = [EvSave (setLastCopied Fixture.header "photos/a");
         EvSave (setLastCopied Fixture.header "photos/c")].
Proof. split_and!; reflexivity. Qed.

(** Fatal abort: the second result fails with an error outside the skip
    class; the process exits with status 1 and the session on disk keeps
    the first unit as its checkpoint. *)
Example fatal_abort :
  let failed :=
    setError (Fixture.transferUnit "photos/b" 20)
             (Some (NewError (OtherError "connection reset"))) in
  let r := statusLoop true false
             [Recv (Fixture.transferUnit "photos/a" 10); Recv failed;
              Recv (Fixture.transferUnit "photos/c" 30)]
             None (newAccounter 60) Fixture.fresh in
  r.2 = Exited 1
  ∧ savedHeader (session r.1) = Some (setLastCopied Fixture.header "photos/a")
  ∧ dataFile (session r.1) = dataFile (session Fixture.fresh).
Proof. split_and!; reflexivity. Qed.

(** Resuming the prepared session after its first unit: one replay, two
    tasks. *)
Example resume_after_first :
  scanLoop false false Fixture.jsonUnmarshal Fixture.copiedState Fixture.isCopied
           ["photos/a"; "photos/b"; "photos/c"]
           (Fixture.isCopiedFactory "photos/a") (Some (newProgressBar 60))
           Fixture.resumed
  = (addOut Fixture.resumed
       [EvBar (Progress 10);
        EvAcquire; EvWgAdd mirrorWg; EvGo (Fixture.transferUnit "photos/b" 10);
        EvAcquire; EvWgAdd mirrorWg; EvGo (Fixture.transferUnit "photos/c" 10)],
     Ret tt).
Proof. reflexivity. Qed.

(** With one slot, the scanner that has started the task of the second
    unit cannot take a slot for the third before that task releases. *)
Example pool_of_one_blocks :
  let task := λ u, callsOf (doMirror true false Fixture.getSource Fixture.putTargets
                              u None (newAccounter 60))
                           (session Fixture.resumed) in
  let start := mkPool 0 [EvAcquire; EvWgAdd mirrorWg;
                         EvGo (Fixture.transferUnit "photos/b" 10);
                         EvAcquire] [] in
  let busy := mkPool 1 [EvAcquire] [task (Fixture.transferUnit "photos/b" 10)] in
  rtc (poolStep 1 task) start busy
  ∧ ∀ p, poolStep 1 task busy p → scannerTodo p = [EvAcquire].
Proof.
  cbv zeta. split.
  - eapply rtc_l; [apply step_acquire; lia|].
    eapply rtc_l; [by apply step_scanner|].
    eapply rtc_l; [apply step_go|]. apply rtc_refl.
  - intros p Hstep. inversion Hstep; subst; simpl; try done; lia.
Qed.


(** ** The runtime version *)

Lemma append_nil_l s : EmptyString +:+ s = s.
Proof. done. Qed.

Lemma append_cons c s1 s2 : String c s1 +:+ s2 = String c (s1 +:+ s2).
Proof. done. Qed.

Lemma append_assoc s1 s2 s3 : (s1 +:+ s2) +:+ s3 = s1 +:+ (s2 +:+ s3).
Proof.
  induction s1 as [|c s1 IH]; [done|]. by rewrite !append_cons, IH.
Qed.

Lemma stripPrefix_app p s : stripPrefix p (p +:+ s) = Some s.
Proof.
  induction p as [|a p IH]; [done|].
  rewrite append_cons. simpl. by rewrite Ascii.eqb_refl.
Qed.

Lemma allChars_app P s1 s2 :
  allChars P (s1 +:+ s2) = allChars P s1 && allChars P s2.
Proof.
  induction s1 as [|c s1 IH]; [done|].
  rewrite append_cons. simpl. by rewrite IH, andb_assoc.
Qed.

Lemma allChars_impl (P Q : Ascii.ascii → bool) s :
  (∀ c, P c = true → Q c = true) → allChars P s = true → allChars Q s = true.
Proof.
  intros HPQ. induction s as [|c s IH]; simpl; [done|].
  intros [Hc Hs]%andb_true_iff. apply andb_true_iff. auto.
Qed.

Lemma findLiteralDigit_none l0 lit v :
  allChars (λ c, negb (Ascii.eqb l0 c)) v = true →
  findLiteralDigit (String l0 lit) v = EmptyString.
Proof.
  induction v as [|c v IH]; [done|].
  intros [Hc Hv]%andb_true_iff.
  cbn [findLiteralDigit stripPrefix].
  apply negb_true_iff in Hc. rewrite Hc. by apply IH.
Qed.

Lemma findLiteralDigit_found l0 lit v d rest :
  allChars (λ c, negb (Ascii.eqb l0 c)) v = true →
  isDigit d = true →
  findLiteralDigit (String l0 lit) (v +:+ (String l0 lit +:+ String d rest))
  = String l0 lit +:+ String d EmptyString.
Proof.
  intros Hv Hd. induction v as [|c v IH].
  - rewrite append_nil_l.
    rewrite (append_cons l0 lit) at 1. cbn [findLiteralDigit].
    rewrite <- (append_cons l0 lit).
    by rewrite stripPrefix_app, Hd.
  - simpl in Hv. apply andb_true_iff in Hv as [Hc Hv].
    rewrite append_cons. cbn [findLiteralDigit stripPrefix].
    apply negb_true_iff in Hc. rewrite Hc. by apply IH.
Qed.

Lemma TrimRight_cut_suffix a b cutset :
  allChars (λ c, inCutset c cutset) b = true →
  TrimRight (a +:+ b) cutset = TrimRight a cutset.
Proof.
  intros Hb.
  assert (TrimRight b cutset = EmptyString) as Hbe.
  { induction b as [|c b IH]; [done|]. simpl in *.
    apply andb_true_iff in Hb as [Hc Hb]. by rewrite IH, Hc. }
  induction a as [|c a IH]; [done|].
  rewrite append_cons. simpl. by rewrite IH.
Qed.

Lemma TrimRight_keep u c cutset :
  inCutset c cutset = false →
  TrimRight (u +:+ String c EmptyString) cutset = u +:+ String c EmptyString.
Proof.
  intros Hc. induction u as [|x u IH]; [simpl; by rewrite Hc|].
  rewrite append_cons. simpl. rewrite IH.
  destruct u; by rewrite ?append_cons.
Qed.

Lemma TrimRight_empty_cutset s : TrimRight s EmptyString = s.
Proof. induction s as [|c s IH]; simpl; [done|]. rewrite IH. by destruct s. Qed.

Lemma TrimRight_allChars P s cutset :
  allChars P s = true → allChars P (TrimRight s cutset) = true.
Proof.
  induction s as [|c s IH]; simpl; [done|].
  intros [Hc Hs]%andb_true_iff.
  destruct (TrimRight s cutset) eqn:Ht.
  - destruct (inCutset c cutset); simpl; [done|]. by rewrite Hc.
  - simpl. rewrite Hc. by apply IH.
Qed.

Lemma TrimRight_prefix s cutset : String.prefix (TrimRight s cutset) s = true.
Proof.
  induction s as [|c s IH]; simpl; [done|].
  destruct (TrimRight s cutset) eqn:Ht.
  - destruct (inCutset c cutset); simpl; [done|].
    destruct (Ascii.ascii_dec c c); [by destruct s|done].
  - simpl. destruct (Ascii.ascii_dec c c); [done|done].
Qed.

Lemma TrimRight_length s cutset :
  (String.length (TrimRight s cutset) ≤ String.length s)%nat.
Proof.
  induction s as [|c s IH]; simpl; [done|].
  destruct (TrimRight s cutset) eqn:Ht.
  - destruct (inCutset c cutset); simpl; lia.
  - simpl in *. lia.
Qed.

Lemma inCutset_app c s1 s2 : inCutset c (s1 +:+ s2) = inCutset c s1 || inCutset c s2.
Proof.
  induction s1 as [|a s1 IH]; [done|].
  rewrite append_cons. simpl. by rewrite IH, orb_assoc.
Qed.

Lemma allChars_inCutset_self cutset pre :
  allChars (λ c, inCutset c (pre +:+ cutset)) cutset = true.
Proof.
  revert pre. induction cutset as [|a cutset IH]; intros pre; simpl; [done|].
  apply andb_true_iff. split.
  - rewrite inCutset_app. simpl. by rewrite Ascii.eqb_refl, orb_true_r.
  - specialize (IH (pre +:+ String a EmptyString)).
    by rewrite append_assoc in IH.
Qed.

Lemma versionChar_not_letter (l c : Ascii.ascii) :
  versionChar l = false → versionChar c = true → Ascii.eqb l c = false.
Proof.
  intros Hl Hc. destruct (Ascii.eqb l c) eqn:He; [|done].
  apply Ascii.eqb_eq in He as ->. congruence.
Qed.

(** X16.  A release.  On a runtime version [go] followed by digits and
    dots only, the normalised version is what follows [go]: no
    pre-release marker is found and nothing is trimmed. *)
Theorem normalized_release (v : string) :
  allChars versionChar v = true →
  getNormalizedGolangVersion ("go" +:+ v) = v.
Proof.
  intros Hv. unfold getNormalizedGolangVersion.
  replace (TrimPrefix ("go" +:+ v) "go") with v
    by (unfold TrimPrefix; by rewrite stripPrefix_app).
  rewrite (findLiteralDigit_none _ _ v), TrimRight_empty_cutset.
  - by rewrite (findLiteralDigit_none _ _ v), TrimRight_empty_cutset;
      [|eapply allChars_impl; [|done]; intros c Hc;
        by rewrite versionChar_not_letter].
  - eapply allChars_impl; [|done]. intros c Hc. by rewrite versionChar_not_letter.
Qed.

Lemma isDigit_versionChar d : isDigit d = true → versionChar d = true.
Proof. intros Hd. unfold versionChar. by rewrite Hd. Qed.

Lemma normalized_prerelease_trim lit v d :
  lit = "beta" ∨ lit = "rc" →
  allChars versionChar v = true → isDigit d = true →
  getNormalizedGolangVersion ("go" +:+ (v +:+ (lit +:+ String d EmptyString)))
  = TrimRight v (lit +:+ String d EmptyString).
Proof.
  intros Hlit Hv Hd. unfold getNormalizedGolangVersion.
  replace (TrimPrefix ("go" +:+ (v +:+ (lit +:+ String d EmptyString))) "go")
    with (v +:+ (lit +:+ String d EmptyString))
    by (unfold TrimPrefix; by rewrite stripPrefix_app).
  assert (∀ l : Ascii.ascii, versionChar l = false →
            allChars (λ c, negb (Ascii.eqb l c)) v = true) as Hno.
  { intros l Hl. eapply allChars_impl; [|exact Hv].
    intros c Hc. by rewrite versionChar_not_letter. }
  pose proof (isDigit_versionChar d Hd) as Hdv.
  destruct Hlit as [-> | ->].
  - rewrite findLiteralDigit_found by auto.
    rewrite (TrimRight_cut_suffix v), (findLiteralDigit_none _ _ (TrimRight v _)),
      TrimRight_empty_cutset; [done| |].
    + eapply allChars_impl; [|by apply TrimRight_allChars].
      intros c Hc. by rewrite versionChar_not_letter.
    + apply (allChars_inCutset_self _ EmptyString).
  - rewrite (findLiteralDigit_none _ _ (v +:+ _)), TrimRight_empty_cutset.
    + rewrite findLiteralDigit_found by auto.
      rewrite TrimRight_cut_suffix; [done|].
      apply (allChars_inCutset_self _ EmptyString).
    + rewrite allChars_app, Hno by done.
      rewrite !append_cons, append_nil_l. cbn [allChars andb].
      by rewrite (versionChar_not_letter _ d).
Qed.

(** X17.  A pre-release.  On [go], a release number, [beta] or [rc] and
    one digit, the normalised version is the release number, provided its
    last character is not that digit. *)
Theorem normalized_prerelease (lit u : string) (c d : Ascii.ascii) :
  lit = "beta" ∨ lit = "rc" →
  allChars versionChar u = true → versionChar c = true → isDigit d = true →
  c ≠ d →
  getNormalizedGolangVersion
    ("go" +:+ ((u +:+ String c EmptyString) +:+ (lit +:+ String d EmptyString)))
  = u +:+ String c EmptyString.
Proof.
  intros Hlit Hu Hc Hd Hne.
  rewrite normalized_prerelease_trim; [|done| |done].
  - apply TrimRight_keep. rewrite inCutset_app. cbn [inCutset].
    assert (Ascii.eqb d c = false) as -> by (apply Ascii.eqb_neq; congruence).
    destruct Hlit as [-> | ->]; cbn [inCutset];
      by rewrite !(versionChar_not_letter _ c).
  - rewrite allChars_app, Hu. cbn [allChars]. by rewrite Hc.
Qed.

(** X18.  A pre-release whose number is a digit the release number ends
    with.  [strings.TrimRight] takes the marker as a set of characters, so
    the last digit of the release number goes with it, and every digit
    equal to it before: the normalised version is a proper part of the
    release number, one character short at least. *)
Theorem normalized_prerelease_overtrim (lit u : string) (d : Ascii.ascii) :
  lit = "beta" ∨ lit = "rc" →
  allChars versionChar u = true → isDigit d = true →
  getNormalizedGolangVersion
    ("go" +:+ ((u +:+ String d EmptyString) +:+ (lit +:+ String d EmptyString)))
  = TrimRight u (lit +:+ String d EmptyString)
  ∧ String.prefix
      (getNormalizedGolangVersion
         ("go" +:+ ((u +:+ String d EmptyString) +:+ (lit +:+ String d EmptyString))))
      u = true.
Proof.
  intros Hlit Hu Hd.
  assert (getNormalizedGolangVersion
    ("go" +:+ ((u +:+ String d EmptyString) +:+ (lit +:+ String d EmptyString)))
  = TrimRight u (lit +:+ String d EmptyString)) as ->.
  { rewrite normalized_prerelease_trim; [|done| |done].
    - apply TrimRight_cut_suffix. cbn [allChars]. rewrite inCutset_app.
      cbn [inCutset]. by rewrite Ascii.eqb_refl, !orb_true_r.
    - rewrite allChars_app, Hu. cbn [allChars]. by rewrite isDigit_versionChar. }
  split; [done|]. apply TrimRight_prefix.
Qed.


(** ** More on the concrete session *)

Lemma prepare_reports_errors_witness :
  ∃ w',
    doPrepareMirrorURLs false false Invocation.prepareMirrorURLs Fixture.isEmpty
      Fixture.jsonMarshal false None Fixture.fresh = (w', Ret tt)
    ∧ List.filter isErrorIf (out w')
        = [EvErrorIf (Trace (NewError (PathInsufficientPermission "photos/b")) [])
                     "Unable to prepare URLs for mirroring."]
    ∧ dataFile (session w') = Some ["photos/a"; "photos/c"].
Proof.
  exists (doPrepareMirrorURLs false false Invocation.prepareMirrorURLs Fixture.isEmpty
            Fixture.jsonMarshal false None Fixture.fresh).1.
  assert (doPrepareMirrorURLs false false Invocation.prepareMirrorURLs
            Fixture.isEmpty Fixture.jsonMarshal false None Fixture.fresh
          = ((doPrepareMirrorURLs false false Invocation.prepareMirrorURLs
                Fixture.isEmpty Fixture.jsonMarshal false None Fixture.fresh).1,
             Ret tt)) as Hrun by (vm_compute; reflexivity).
  split; [exact Hrun|].
  destruct (prepare_reports_errors false false Invocation.prepareMirrorURLs
              Fixture.isEmpty Fixture.jsonMarshal false None Fixture.fresh _ Hrun)
    as (sourceURL & targetURLs & tr & Ha & Ho & Hf).
  injection Ha as <- <-.
  split; [|vm_compute; reflexivity].
  rewrite Ho. exact Hf.
Defined.

Lemma prepare_returns_iff_witness :
  CommandArgs (Header (session Fixture.fresh)) = "photos" :: ["backup"]
  ∧ (doPrepareMirrorURLs false false Fixture.prepareMirrorURLs Fixture.isEmpty
       Fixture.jsonMarshal false None Fixture.fresh).2 = Ret tt.
Proof.
  split; [reflexivity|].
  apply (prepare_returns_iff false false Fixture.prepareMirrorURLs Fixture.isEmpty
           Fixture.jsonMarshal false None Fixture.fresh "photos" ["backup"] eq_refl).
  split; [discriminate|].
  repeat constructor; intros _; eexists; reflexivity.
Defined.

Lemma pool_progress_witness :
  let task := λ u, callsOf (doMirror false false Fixture.getSource Fixture.putTargets
                              u (Some (newProgressBar 60)) (newAccounter 60))
                           (session Fixture.resumed) in
  let start :=
    mkPool 0 (callsOf (scanLoop false false Fixture.jsonUnmarshal Fixture.copiedState
                         Fixture.isCopied ["photos/a"; "photos/b"]
                         (Fixture.isCopiedFactory "photos/a")
                         (Some (newProgressBar 60)))
                      (session Fixture.resumed)) [] in
  let p := mkPool 1 [EvWgAdd mirrorWg; EvGo (Fixture.transferUnit "photos/b" 10)] [] in
  rtc (poolStep 1 task) start p
  ∧ ∃ p', poolStep 1 task p p'.
Proof.
  intros task start p.
  assert (rtc (poolStep 1 task) start p) as Hsteps.
  { eapply rtc_l; [|eapply rtc_l; [|apply rtc_refl]].
    - exact (step_scanner 1 task 0 (EvBar (Progress 10))
               [EvAcquire; EvWgAdd mirrorWg; EvGo (Fixture.transferUnit "photos/b" 10)]
               [] eq_refl eq_refl).
    - apply (step_acquire 1 task 0 _ []). lia. }
  split; [exact Hsteps|].
  destruct (pool_progress false false false Fixture.getSource Fixture.putTargets
              Fixture.jsonUnmarshal Fixture.copiedState Fixture.isCopied
              2 ["photos/a"; "photos/b"] (Fixture.isCopiedFactory "photos/a")
              (Some (newProgressBar 60)) (newAccounter 60) Fixture.resumed p Hsteps)
    as [[Hdone _]|Hstep]; [discriminate Hdone|exact Hstep].
Defined.

Lemma mainMirror_hands_over_witness :
  Invocation.checkMirrorSyntax Invocation.ctx Fixture.fresh = (Fixture.fresh, Ret tt)
  ∧ Invocation.newSessionV5 Fixture.fresh = (Fixture.fresh, Ret Invocation.created)
  ∧ Invocation.osGetwd.2 = None
  ∧ (Invocation.args2URLs (ctxArgs Invocation.ctx)).2 = None
  ∧ ∀ trapCh,
      doMirrorSession_prepare false false Fixture.prepareMirrorURLs Fixture.isEmpty
        Fixture.jsonMarshal Fixture.HasData trapCh
        (mkWorld (commandSession Invocation.osGetwd Invocation.args2URLs
                    Invocation.ctx Invocation.created) [])
      = doPrepareMirrorURLs false false Fixture.prepareMirrorURLs Fixture.isEmpty
          Fixture.jsonMarshal true trapCh
          (mkWorld (commandSession Invocation.osGetwd Invocation.args2URLs
                      Invocation.ctx Invocation.created) []).
Proof.
  split_and!; [reflexivity..|].
  destruct (mainMirror_hands_over false false Fixture.prepareMirrorURLs Fixture.isEmpty
              Fixture.jsonMarshal Fixture.HasData
              Invocation.checkMirrorSyntax Invocation.newSessionV5
              Invocation.osGetwd Invocation.args2URLs Invocation.ctx (ret tt)
              Fixture.fresh Fixture.fresh Fixture.fresh Invocation.created
              eq_refl eq_refl eq_refl eq_refl) as (_ & Hforce & _).
  exact Hforce.
Defined.

Lemma mainMirror_setup_failure_witness :
  Invocation.checkMirrorSyntax Invocation.ctx Fixture.fresh = (Fixture.fresh, Ret tt)
  ∧ Invocation.newSessionV5 Fixture.fresh = (Fixture.fresh, Ret Invocation.created)
  ∧ is_Some Invocation.osGetwdFails.2
  ∧ ∃ w',
      mainMirror Invocation.checkMirrorSyntax Invocation.newSessionV5
        Invocation.osGetwdFails Invocation.args2URLs Invocation.ctx (ret tt)
        Fixture.fresh = (w', Exited 1)
      ∧ discarded w'.
Proof.
  split_and!; [reflexivity..|by eexists|].
  destruct (mainMirror_setup_failure
              Invocation.checkMirrorSyntax Invocation.newSessionV5
              Invocation.osGetwdFails Invocation.args2URLs Invocation.ctx (ret tt)
              Fixture.fresh Fixture.fresh Fixture.fresh Invocation.created
              eq_refl eq_refl (or_introl (ex_intro _ _ eq_refl)))
    as (w' & err & msg & Hrun & Hd & _).
  exists w'. split; [exact Hrun|exact Hd].
Defined.

Lemma mainMirror_no_session_left_witness :
  (mainMirror Invocation.checkMirrorSyntax Invocation.newSessionV5
     Invocation.osGetwd Invocation.args2URLs Invocation.ctx (ret tt)
     Fixture.fresh).2 = Ret tt
  ∧ discarded (mainMirror Invocation.checkMirrorSyntax Invocation.newSessionV5
                 Invocation.osGetwd Invocation.args2URLs Invocation.ctx (ret tt)
                 Fixture.fresh).1.
Proof.
  split; [reflexivity|].
  apply (mainMirror_no_session_left
           Invocation.checkMirrorSyntax Invocation.newSessionV5
           Invocation.osGetwd Invocation.args2URLs Invocation.ctx (ret tt)
           Fixture.fresh eq_refl).
Defined.

Lemma normalized_release_witness :
  allChars versionChar "1.21.3" = true
  ∧ getNormalizedGolangVersion "go1.21.3" = "1.21.3".
Proof.
  split; [reflexivity|]. exact (normalized_release "1.21.3" eq_refl).
Defined.

Lemma normalized_prerelease_witness :
  allChars versionChar "1." = true
  ∧ versionChar (Ascii.ascii_of_nat 53) = true
  ∧ isDigit (Ascii.ascii_of_nat 49) = true
  ∧ getNormalizedGolangVersion "go1.5rc1" = "1.5".
Proof.
  split_and!; [reflexivity..|].
  refine (normalized_prerelease "rc" "1." (Ascii.ascii_of_nat 53) (Ascii.ascii_of_nat 49)
            (or_intror eq_refl) eq_refl eq_refl eq_refl _).
  discriminate.
Defined.

Lemma normalized_prerelease_overtrim_witness :
  allChars versionChar "1." = true
  ∧ isDigit (Ascii.ascii_of_nat 53) = true
  ∧ getNormalizedGolangVersion "go1.5beta5" = "1.".
Proof.
  split_and!; [reflexivity..|].
  destruct (normalized_prerelease_overtrim "beta" "1." (Ascii.ascii_of_nat 53)
              (or_introl eq_refl) eq_refl eq_refl) as [Hrun _].
  exact Hrun.
Defined.


(** The counterexample to C6 as stated: two units of sizes [2^63 - 1] and
    [1] are enumerated and logged; their sizes add up to [2^63], and
    preparation returns with [TotalBytes = - 2^63]. *)
Lemma prepare_totals_overflow :
  (doPrepareMirrorURLs false false Invocation.prepareLargeTree Fixture.isEmpty
     Fixture.jsonMarshal false None Fixture.fresh).2 = Ret tt
  ∧ dataFile (session
      (doPrepareMirrorURLs false false Invocation.prepareLargeTree Fixture.isEmpty
         Fixture.jsonMarshal false None Fixture.fresh).1)
      = Some ["disk/a"; "disk/b"]
  ∧ sumSizes (Invocation.prepareLargeTree "photos" ["backup"] false)
      = 9223372036854775808
  ∧ TotalBytes (Header (session
      (doPrepareMirrorURLs false false Invocation.prepareLargeTree Fixture.isEmpty
         Fixture.jsonMarshal false None Fixture.fresh).1))
      = -9223372036854775808
  ∧ TotalObjects (Header (session
      (doPrepareMirrorURLs false false Invocation.prepareLargeTree Fixture.isEmpty
         Fixture.jsonMarshal false None Fixture.fresh).1))
      = 2.
Proof. split_and!; vm_compute; reflexivity. Qed.

Lemma padding_length (n : nat) : String.length (Invocation.padding n) = n.
Proof. induction n as [|n IH]; [done|]. simpl. by rewrite IH. Qed.

Lemma scanner_stops_at_long_line_witness :
  Forall (λ l, Z.of_nat (String.length l) < MaxScanTokenSize) ["photos/a"]
  ∧ MaxScanTokenSize ≤ Z.of_nat (String.length Invocation.longLine)
  ∧ dataFile (session Invocation.resumedLong)
      = Some (["photos/a"] ++ Invocation.longLine :: ["photos/c"])
  ∧ doMirrorSession_readers true false Fixture.copiedState Fixture.isCopiedFactory
      Invocation.resumedLong
    = (Invocation.resumedLong,
       Ret (newAccounter 60, None, ["photos/a"], Fixture.isCopiedFactory "photos/a")).
Proof.
  assert (Forall (λ l, Z.of_nat (String.length l) < MaxScanTokenSize) ["photos/a"])
    as Hpre by (repeat constructor).
  assert (MaxScanTokenSize ≤ Z.of_nat (String.length Invocation.longLine)) as Hlong.
  { unfold Invocation.longLine. rewrite padding_length.
    unfold MaxScanTokenSize. lia. }
  split; [exact Hpre|]. split; [exact Hlong|]. split; [reflexivity|].
  destruct (scanner_stops_at_long_line true false false Fixture.jsonUnmarshal
              Fixture.copiedState Fixture.isCopiedFactory Fixture.isCopied
              ["photos/a"] ["photos/c"] Invocation.longLine
              (Fixture.isCopiedFactory "photos/a") None
              Invocation.resumedLong Hpre Hlong eq_refl) as [Hreaders _].
  exact Hreaders.
Defined.
